(** * Field-mapping catalog of the crypto-exchange API catalog

    A shallow embedding of the SQLite-backed scripts that register vendor
    field mappings (create_bitmart_mappings.py, create_korbit_mappings.py,
    create_zaif_mappings.py, create_rest_mappings_demo.py), of their
    verification queries and of the statistics of update_status.py.

    Tables are lists of rows in the order the engine scans them, a nullable
    column is an [option], a query is a filter over the tables, and an
    INSERT appends a row.  Python integers are [Z]; Python floats are the
    kernel's binary64 floats. *)

From Stdlib Require Import ZArith List Bool String Ascii Lia Permutation.
From Stdlib Require Import Floats Uint63 DecimalString Sorted.
Import ListNotations.

Local Open Scope string_scope.
Local Open Scope Z_scope.

(** ** Python and SQL primitives *)

(** [str.lower()] on ASCII text. *)
Definition ascii_lower (c : ascii) : ascii :=
  let n := N_of_ascii c in
  if ((65 <=? n) && (n <=? 90))%N then ascii_of_N (n + 32) else c.

Fixpoint lower (s : string) : string :=
  match s with
  | EmptyString => EmptyString
  | String c s' => String (ascii_lower c) (lower s')
  end.

(** Python's [needle in hay] on strings. *)
Fixpoint contains (needle hay : string) : bool :=
  prefix needle hay ||
  match hay with
  | EmptyString => false
  | String _ hay' => contains needle hay'
  end.

(** SQLite's [s LIKE p]: [%] matches any run of characters, [_] any single
    character, every other character matches itself without regard to
    ASCII case. *)
Fixpoint like (p s : string) {struct p} : bool :=
  match p with
  | EmptyString => match s with EmptyString => true | String _ _ => false end
  | String c p' =>
      if Ascii.eqb c "%" then
        (fix any (t : string) : bool :=
           like p' t ||
           match t with
           | EmptyString => false
           | String _ t' => any t'
           end) s
      else
        match s with
        | EmptyString => false
        | String d s' =>
            (Ascii.eqb c "_" || Ascii.eqb (ascii_lower c) (ascii_lower d))
            && like p' s'
        end
  end.

(** Truth value of an [Optional[int]]: [None] and [0] are falsy. *)
Definition truthy (o : option Z) : bool :=
  match o with
  | Some z => negb (z =? 0)
  | None => false
  end.

(** SQL [col = ?] on a nullable integer column: NULL never compares equal. *)
Definition null_eqb (col : option Z) (v : Z) : bool :=
  match col with
  | Some c => c =? v
  | None => false
  end.

(** Python's [l[:n]]: a negative bound counts from the end. *)
Definition slice_to {A : Type} (l : list A) (n : Z) : list A :=
  if 0 <=? n then firstn (Z.to_nat n) l
  else firstn (List.length l - Z.to_nat (- n)) l.

(** ** The stored catalog *)

Record Vendor := mkVendor {
  vendor_id : Z;
  vendor_name : string
}.

Record CanonicalDataType := mkDataType {
  data_type_id : Z;
  data_type_name : string
}.

Record CanonicalField := mkCanonicalField {
  canonical_field_id : Z;
  field_name : string
}.

Record DataTypeField := mkDataTypeField {
  dtf_data_type_id : Z;
  dtf_canonical_field_id : Z
}.

Record RestEndpoint := mkEndpoint {
  endpoint_id : Z;
  ep_vendor_id : Z;
  ep_path : string;
  ep_method : string
}.

Record WebSocketChannel := mkChannel {
  channel_id : Z;
  ch_vendor_id : Z;
  channel_name : string
}.

(** The [{"type": ...}] tag the scripts store as the transformation rule. *)
Inductive TransformationRule :=
| identity
| string_to_numeric
| integer_to_datetime
| ms_to_datetime.

Record FieldMapping := mkFieldMapping {
  mapping_id : Z;
  fm_vendor_id : Z;
  fm_canonical_field_id : Z;
  source_type : string;
  entity_type : string;
  vendor_field_path : string;
  fm_endpoint_id : option Z;
  fm_channel_id : option Z;
  transformation_rule : option TransformationRule;
  priority : Z;
  is_active : bool
}.

Record Database := mkDatabase {
  vendors : list Vendor;
  canonical_data_types : list CanonicalDataType;
  canonical_fields : list CanonicalField;
  data_type_fields : list DataTypeField;
  rest_endpoints : list RestEndpoint;
  websocket_channels : list WebSocketChannel;
  field_mappings : list FieldMapping
}.

(** The column values an INSERT statement supplies; the store adds the
    [mapping_id]. *)
Record NewMapping := mkNewMapping {
  nm_vendor_id : Z;
  nm_canonical_field_id : Z;
  nm_source_type : string;
  nm_entity_type : string;
  nm_vendor_field_path : string;
  nm_endpoint_id : option Z;
  nm_channel_id : option Z;
  nm_transformation_rule : option TransformationRule;
  nm_priority : Z;
  nm_is_active : bool
}.

(** Modelled from the spec: the schema of [field_mappings] is not among the
    sources.  The column defaults an INSERT relies on when it names neither
    [priority] nor [is_active] are the spec's "is_active = true and the given
    priority (default 0)". *)
Definition default_priority : Z := 0.
Definition default_is_active : bool := true.

(** The rowid SQLite gives a new row: one more than the largest in use. *)
Definition next_mapping_id (db : Database) : Z :=
  1 + fold_right (fun fm acc => Z.max (mapping_id fm) acc) 0 (field_mappings db).

Definition stored_row (db : Database) (r : NewMapping) : FieldMapping :=
  mkFieldMapping (next_mapping_id db)
    (nm_vendor_id r) (nm_canonical_field_id r) (nm_source_type r)
    (nm_entity_type r) (nm_vendor_field_path r) (nm_endpoint_id r)
    (nm_channel_id r) (nm_transformation_rule r) (nm_priority r)
    (nm_is_active r).

Definition with_field_mappings (db : Database) (fms : list FieldMapping)
  : Database :=
  mkDatabase (vendors db) (canonical_data_types db) (canonical_fields db)
    (data_type_fields db) (rest_endpoints db) (websocket_channels db) fms.

(** Modelled from the spec: the constraints of the [field_mappings] table
    (schema not among the sources) are the spec's "referential constraints
    from field_mappings to both vendor-scoped sources and canonical fields";
    a NULL reference satisfies a foreign key. *)
Definition fk_constraints (db : Database) (r : NewMapping) : bool :=
  existsb (fun v => vendor_id v =? nm_vendor_id r) (vendors db)
  && existsb (fun cf => canonical_field_id cf =? nm_canonical_field_id r)
       (canonical_fields db)
  && match nm_endpoint_id r with
     | Some e => existsb (fun ep => endpoint_id ep =? e) (rest_endpoints db)
     | None => true
     end
  && match nm_channel_id r with
     | Some c => existsb (fun ch => channel_id ch =? c) (websocket_channels db)
     | None => true
     end.

(** ** Lookups shared by the mapper scripts

    Each is a SELECT followed by [fetchone()]: the first matching row. *)

Definition get_vendor_id (db : Database) (name : string) : option Z :=
  option_map vendor_id
    (find (fun v => String.eqb (vendor_name v) name) (vendors db)).

Definition get_websocket_channel_id (db : Database) (vendor : Z)
    (name : string) : option Z :=
  option_map channel_id
    (find (fun ch => (ch_vendor_id ch =? vendor)
                     && String.eqb (channel_name ch) name)
       (websocket_channels db)).

Definition get_canonical_field_id (db : Database) (name : string) : option Z :=
  option_map canonical_field_id
    (find (fun cf => String.eqb (field_name cf) name) (canonical_fields db)).

(** The value a Python [if not x: ...] guard lets through. *)
Definition found (o : option Z) : option Z :=
  if truthy o then o else None.

(** What a script logs about one proposed mapping. *)
Inductive Outcome :=
| CanonicalFieldNotFound
| MappingAlreadyExists
| MappingCreated
| InsertFailed.

Definition LogLine : Type := string * string * Outcome.

(** *** BitMart: the batch of [map_bitmart_ticker_fields] and of [--dry-run] *)

Definition BitmartProposal : Type :=
  string * string * TransformationRule * string.

Definition bitmart_mappings : list BitmartProposal :=
  [ ("data[].symbol", "symbol", identity, "ticker");
    ("data[].last_price", "last_price", string_to_numeric, "ticker");
    ("data[].best_bid", "bid_price", string_to_numeric, "ticker");
    ("data[].best_ask", "ask_price", string_to_numeric, "ticker");
    ("data[].best_bid_size", "best_bid_size", string_to_numeric, "ticker");
    ("data[].best_ask_size", "best_ask_size", string_to_numeric, "ticker");
    ("data[].high_24h", "high_24h", string_to_numeric, "ticker");
    ("data[].low_24h", "low_24h", string_to_numeric, "ticker");
    ("data[].open_24h", "open_24h", string_to_numeric, "ticker");
    ("data[].quote_volume_24h", "volume_24h", string_to_numeric, "ticker");
    ("data[].base_volume_24h", "volume_24h", string_to_numeric, "ticker");
    ("data[].timestamp", "timestamp", integer_to_datetime, "ticker");
    ("data[].close_24h", "last_price", string_to_numeric, "ticker") ].




(** *** Korbit and Zaif: proposals and source selection *)

Definition Proposal : Type := string * string * TransformationRule.

Definition korbit_proposed_mappings : list Proposal :=
  [ ("last", "last_price", string_to_numeric);
    ("bid", "bid_price", string_to_numeric);
    ("ask", "ask_price", string_to_numeric);
    ("open", "open_24h", string_to_numeric);
    ("high", "high_24h", string_to_numeric);
    ("low", "low_24h", string_to_numeric);
    ("volume", "volume_24h", string_to_numeric);
    ("timestamp", "timestamp", ms_to_datetime);
    ("currency_pair", "symbol", identity) ].

Definition zaif_proposed_mappings : list Proposal :=
  [ ("last", "last_price", identity);
    ("high", "high_24h", identity);
    ("low", "low_24h", identity);
    ("volume", "volume_24h", identity);
    ("bid", "bid_price", identity);
    ("ask", "ask_price", identity);
    ("last_price", "last_price", identity) ].

(** [get_websocket_channels]: the vendor's channels named LIKE '%ticker%'. *)
Definition get_websocket_channels (db : Database) (vendor : Z)
  : list WebSocketChannel :=
  filter (fun ch => (ch_vendor_id ch =? vendor)
                    && like "%ticker%" (channel_name ch))
    (websocket_channels db).

(** The [for channel in channels: ... break] scan for the ticker channel. *)
Definition first_ticker_channel (channels : list WebSocketChannel)
  : option Z :=
  option_map channel_id
    (find (fun ch => contains "ticker" (lower (channel_name ch))) channels).

(** [get_rest_endpoints]: the vendor's GET endpoints whose path is
    LIKE '%ticker%' or LIKE '%last_price%'. *)
Definition get_rest_endpoints (db : Database) (vendor : Z)
  : list RestEndpoint :=
  filter (fun ep => (ep_vendor_id ep =? vendor)
                    && String.eqb (ep_method ep) "GET"
                    && (like "%ticker%" (ep_path ep)
                        || like "%last_price%" (ep_path ep)))
    (rest_endpoints db).

(** The scan that fills [ticker_endpoint_id] and [last_price_endpoint_id]:
    no [break], so the last matching endpoint of each kind stays. *)
Definition select_zaif_endpoints (endpoints : list RestEndpoint)
  : option Z * option Z :=
  fold_left
    (fun acc ep =>
       if contains "/api/1/ticker/{currency_pair}" (ep_path ep)
       then (Some (endpoint_id ep), snd acc)
       else if contains "/api/1/last_price/{currency_pair}" (ep_path ep)
       then (fst acc, Some (endpoint_id ep))
       else acc)
    endpoints (None, None).

(** The existence check of the Korbit and Zaif loops:
    [WHERE vendor_id = ? AND vendor_field_path = ? AND canonical_field_id = ?]. *)
Definition path_key (vendor : Z) (path : string) (cf : Z) (fm : FieldMapping)
  : bool :=
  (fm_vendor_id fm =? vendor)
  && String.eqb (vendor_field_path fm) path
  && (fm_canonical_field_id fm =? cf).

Definition mapping_exists (db : Database) (vendor : Z) (path : string)
    (cf : Z) : bool :=
  existsb (path_key vendor path cf) (field_mappings db).

(** The existence check of BitMart's [create_field_mapping]:
    [WHERE vendor_id = ? AND canonical_field_id = ? AND vendor_field_path = ?
     AND channel_id = ?]. *)
Definition channel_key (vendor cf : Z) (path : string) (channel : Z)
    (fm : FieldMapping) : bool :=
  (fm_vendor_id fm =? vendor)
  && (fm_canonical_field_id fm =? cf)
  && String.eqb (vendor_field_path fm) path
  && null_eqb (fm_channel_id fm) channel.

Definition channel_mapping_exists (db : Database) (vendor cf : Z)
    (path : string) (channel : Z) : bool :=
  existsb (channel_key vendor cf path channel) (field_mappings db).



(** The number of stored mappings a predicate selects. *)
Definition count_rows (sel : FieldMapping -> bool) (db : Database) : Z :=
  Z.of_nat (List.length (filter sel (field_mappings db))).

(** The dry-run report of Korbit and Zaif: each proposal with the canonical
    id the script found for it, if any. *)
Definition dry_run_report (db : Database) (batch : list Proposal)
  : list (Proposal * option Z) :=
  map (fun p => (p, found (get_canonical_field_id db (snd (fst p))))) batch.

Inductive AbortReason :=
| VendorNotFound
| NoSourcesFound
| NoTickerSource.

Record MapperState := mkMapperState {
  ms_db : Database;
  ms_created : Z;
  ms_log : list LogLine
}.

(** How a call of [create_mappings] ends. *)
Inductive Run :=
| Aborted (why : AbortReason)
| DryRun (report : list (Proposal * option Z))
| Committed (st : MapperState).

Definition db_after (db : Database) (r : Run) : Database :=
  match r with
  | Committed st => ms_db st
  | _ => db
  end.

(** ** The registration passes *)

Section Registration.

(** The integrity constraints of the store: an INSERT they reject raises
    [sqlite3.Error]. *)
Variable constraints_ok : Database -> NewMapping -> bool.

(** [execute("INSERT INTO field_mappings ...")]; [None] is the raised
    error. *)
Definition insert_field_mapping (db : Database) (r : NewMapping)
  : option Database :=
  if constraints_ok db r
  then Some (with_field_mappings db (field_mappings db ++ [stored_row db r]))
  else None.

(** *** create_bitmart_mappings.py *)

(** [BitmartTickerMapper.create_field_mapping]: the new store, the line
    logged and the returned flag. *)
Definition create_field_mapping (db : Database) (vendor cf : Z)
    (path : string) (channel : Z) (etype : string)
    (rule : option TransformationRule) (prio : Z)
  : Database * Outcome * bool :=
  if channel_mapping_exists db vendor cf path channel
  then (db, MappingAlreadyExists, true)
  else
    match insert_field_mapping db
            (mkNewMapping vendor cf "websocket" etype path None
               (Some channel) rule prio true) with
    | Some db' => (db', MappingCreated, true)
    | None => (db, InsertFailed, false)
    end.

Record BitmartState := mkBitmartState {
  bs_db : Database;
  bs_created : Z;
  bs_failed : Z;
  bs_log : list LogLine
}.

(** One turn of the loop of [map_bitmart_ticker_fields]. *)
Definition bitmart_step (vendor channel : Z) (st : BitmartState)
    (p : BitmartProposal) : BitmartState :=
  let '(vendor_path, canonical_name, rule, etype) := p in
  match found (get_canonical_field_id (bs_db st) canonical_name) with
  | None =>
      mkBitmartState (bs_db st) (bs_created st) (bs_failed st + 1)
        (bs_log st ++ [(vendor_path, canonical_name, CanonicalFieldNotFound)])
  | Some cf =>
      let '(db', line, ok) :=
        create_field_mapping (bs_db st) vendor cf vendor_path channel etype
          (Some rule) 10 in
      if ok
      then mkBitmartState db' (bs_created st + 1) (bs_failed st)
             (bs_log st ++ [(vendor_path, canonical_name, line)])
      else mkBitmartState db' (bs_created st) (bs_failed st + 1)
             (bs_log st ++ [(vendor_path, canonical_name, line)])
  end.

Definition bitmart_loop (vendor channel : Z) (batch : list BitmartProposal)
    (st : BitmartState) : BitmartState :=
  fold_left (bitmart_step vendor channel) batch st.

(** [map_bitmart_ticker_fields] over a batch; the Python return value is
    [bs_created]. *)
Definition map_bitmart_ticker_fields_over (batch : list BitmartProposal)
    (db : Database) : BitmartState :=
  match found (get_vendor_id db "bitmart") with
  | None => mkBitmartState db 0 0 []
  | Some vendor =>
      match found (get_websocket_channel_id db vendor "spot/ticker") with
      | None => mkBitmartState db 0 0 []
      | Some channel =>
          bitmart_loop vendor channel batch (mkBitmartState db 0 0 [])
      end
  end.

Definition map_bitmart_ticker_fields : Database -> BitmartState :=
  map_bitmart_ticker_fields_over bitmart_mappings.

(** *** create_korbit_mappings.py *)

(** One turn of the creating loop of [KorbitTickerMapper.create_mappings]. *)
Definition korbit_step (vendor channel : Z) (st : MapperState)
    (p : Proposal) : MapperState :=
  let '(vendor_field, canonical_field, transform) := p in
  match found (get_canonical_field_id (ms_db st) canonical_field) with
  | None =>
      mkMapperState (ms_db st) (ms_created st)
        (ms_log st ++ [(vendor_field, canonical_field, CanonicalFieldNotFound)])
  | Some cf =>
      if mapping_exists (ms_db st) vendor vendor_field cf
      then mkMapperState (ms_db st) (ms_created st)
             (ms_log st ++ [(vendor_field, canonical_field, MappingAlreadyExists)])
      else
        match insert_field_mapping (ms_db st)
                (mkNewMapping vendor cf "websocket" "ticker" vendor_field
                   None (Some channel) (Some transform)
                   default_priority default_is_active) with
        | Some db' =>
            mkMapperState db' (ms_created st + 1)
              (ms_log st ++ [(vendor_field, canonical_field, MappingCreated)])
        | None =>
            mkMapperState (ms_db st) (ms_created st)
              (ms_log st ++ [(vendor_field, canonical_field, InsertFailed)])
        end
  end.

Definition korbit_create_mappings_over (batch : list Proposal)
    (dry_run : bool) (db : Database) : Run :=
  match found (get_vendor_id db "korbit") with
  | None => Aborted VendorNotFound
  | Some vendor =>
      match get_websocket_channels db vendor with
      | [] => Aborted NoSourcesFound
      | channels =>
          match found (first_ticker_channel channels) with
          | None => Aborted NoTickerSource
          | Some channel =>
              if dry_run then DryRun (dry_run_report db batch)
              else Committed
                     (fold_left (korbit_step vendor channel) batch
                        (mkMapperState db 0 []))
          end
      end
  end.

Definition korbit_create_mappings : bool -> Database -> Run :=
  korbit_create_mappings_over korbit_proposed_mappings.

(** *** create_zaif_mappings.py *)

(** One turn of the creating loop of [ZaifTickerMapper.create_mappings]. *)
Definition zaif_step (vendor : Z) (ticker_endpoint : Z)
    (last_price_endpoint : option Z) (st : MapperState) (p : Proposal)
  : MapperState :=
  let '(vendor_field, canonical_field, transform) := p in
  match found (get_canonical_field_id (ms_db st) canonical_field) with
  | None =>
      mkMapperState (ms_db st) (ms_created st)
        (ms_log st ++ [(vendor_field, canonical_field, CanonicalFieldNotFound)])
  | Some cf =>
      let endpoint :=
        if String.eqb vendor_field "last_price"
        then last_price_endpoint
        else Some ticker_endpoint in
      if mapping_exists (ms_db st) vendor vendor_field cf
      then mkMapperState (ms_db st) (ms_created st)
             (ms_log st ++ [(vendor_field, canonical_field, MappingAlreadyExists)])
      else
        match insert_field_mapping (ms_db st)
                (mkNewMapping vendor cf "rest" "ticker" vendor_field
                   endpoint None (Some transform)
                   default_priority default_is_active) with
        | Some db' =>
            mkMapperState db' (ms_created st + 1)
              (ms_log st ++ [(vendor_field, canonical_field, MappingCreated)])
        | None =>
            mkMapperState (ms_db st) (ms_created st)
              (ms_log st ++ [(vendor_field, canonical_field, InsertFailed)])
        end
  end.

Definition zaif_create_mappings_over (batch : list Proposal)
    (dry_run : bool) (db : Database) : Run :=
  match found (get_vendor_id db "zaif") with
  | None => Aborted VendorNotFound
  | Some vendor =>
      match get_rest_endpoints db vendor with
      | [] => Aborted NoSourcesFound
      | endpoints =>
          let '(ticker_endpoint, last_price_endpoint) :=
            select_zaif_endpoints endpoints in
          match found ticker_endpoint with
          | None => Aborted NoTickerSource
          | Some ticker =>
              if dry_run then DryRun (dry_run_report db batch)
              else Committed
                     (fold_left (zaif_step vendor ticker last_price_endpoint)
                        batch (mkMapperState db 0 []))
          end
      end
  end.

Definition zaif_create_mappings : bool -> Database -> Run :=
  zaif_create_mappings_over zaif_proposed_mappings.

End Registration.

(** ** Python floats

    Counts are converted as Python converts an [int] operand of [/] and [*]
    (exact below 2^53; the counts here are lengths of tables). *)

Definition float_of_Z (z : Z) : float := PrimFloat.of_uint63 (Uint63.of_Z z).

(** [n / d] rounded to the nearest integer, ties to even ([d] positive). *)
Definition div_half_even (n d : Z) : Z :=
  let q := n / d in
  match (2 * (n mod d)) ?= d with
  | Lt => q
  | Gt => q + 1
  | Eq => if Z.even q then q else q + 1
  end.

(** [round(x, 1)] of a finite float: Python rounds the exact binary value
    to one decimal, ties to even.  The rounded float is the double nearest
    to a whole number of tenths and is represented by that number, so 1182
    stands for 118.2.  (The coverage code only rounds finite values; the
    others are given 0.) *)
Definition round1 (x : float) : Z :=
  match Prim2SF x with
  | S754_finite sign m e =>
      let tenths :=
        if 0 <=? e then 10 * Zpos m * 2 ^ e
        else div_half_even (10 * Zpos m) (2 ^ (- e)) in
      if sign then - tenths else tenths
  | _ => 0
  end.

(** [round(ticker_mappings / total_ticker_fields * 100, 1)], with the
    [if total_ticker_fields > 0 else 0] of the source. *)
Definition coverage_percent (ticker_mappings total_ticker_fields : Z) : Z :=
  if total_ticker_fields >? 0
  then round1 (PrimFloat.mul
                 (PrimFloat.div (float_of_Z ticker_mappings)
                                (float_of_Z total_ticker_fields))
                 (float_of_Z 100))
  else 0.

(** A stable sort into descending key order: what
    [list.sort(key=..., reverse=True)] computes. *)
Fixpoint insert_desc {A : Type} (key : A -> Z) (x : A) (l : list A) : list A :=
  match l with
  | [] => [x]
  | y :: l' => if key x <? key y then y :: insert_desc key x l' else x :: l
  end.

Definition sort_desc {A : Type} (key : A -> Z) (l : list A) : list A :=
  fold_right (insert_desc key) [] l.

(** ** update_status.py *)

(** [get_total_canonical_ticker_fields]: COUNT over the three-way join. *)
Definition ticker_field_rows (db : Database)
  : list (CanonicalField * DataTypeField * CanonicalDataType) :=
  flat_map
    (fun cf =>
       flat_map
         (fun dtf =>
            map (fun cdt => (cf, dtf, cdt))
              (filter (fun cdt => (dtf_data_type_id dtf =? data_type_id cdt)
                                  && String.eqb (data_type_name cdt) "ticker")
                 (canonical_data_types db)))
         (filter (fun dtf => canonical_field_id cf =? dtf_canonical_field_id dtf)
            (data_type_fields db)))
    (canonical_fields db).

Definition get_total_canonical_ticker_fields (db : Database) : Z :=
  Z.of_nat (List.length (ticker_field_rows db)).

(** The rows [vendors LEFT JOIN field_mappings ON vendor_id AND
    entity_type = 'ticker'] pairs with one vendor row. *)
Definition ticker_mappings_of (db : Database) (v : Vendor)
  : list FieldMapping :=
  filter (fun fm => (vendor_id v =? fm_vendor_id fm)
                    && String.eqb (entity_type fm) "ticker")
    (field_mappings db).

(** [COUNT(fm.mapping_id)] of the group of one vendor name. *)
Definition count_ticker_mappings (db : Database) (name : string) : Z :=
  Z.of_nat
    (List.length
       (flat_map (ticker_mappings_of db)
          (filter (fun v => String.eqb (vendor_name v) name) (vendors db)))).

(** The groups of [GROUP BY v.vendor_name]. *)
Definition vendor_groups (db : Database) : list (string * Z) :=
  map (fun name => (name, count_ticker_mappings db name))
    (nodup string_dec (map vendor_name (vendors db))).

Section Statistics.

(** [ORDER BY ticker_mappings DESC] as the engine performs it; SQL leaves
    the order of rows with equal counts to the engine. *)
Variable order_by_desc : list (string * Z) -> list (string * Z).

(** [get_exchange_ticker_coverage]: (vendor_name, ticker_mappings,
    coverage_percent). *)
Definition get_exchange_ticker_coverage (db : Database)
  : list (string * Z * Z) :=
  let total_ticker_fields := get_total_canonical_ticker_fields db in
  if total_ticker_fields =? 0 then []
  else
    map (fun '(vendor_name, ticker_mappings) =>
           (vendor_name, ticker_mappings,
            coverage_percent ticker_mappings total_ticker_fields))
      (order_by_desc (vendor_groups db)).

(** [get_coverage_leaders]. *)
Definition get_coverage_leaders (db : Database) (limit : Z)
  : list (string * Z) :=
  let coverage_data :=
    sort_desc (fun x => snd x) (get_exchange_ticker_coverage db) in
  map (fun '(vendor, _, coverage) => (vendor, coverage))
    (slice_to coverage_data limit).


End Statistics.

(** The engine used to evaluate examples: rows with equal counts stay in
    the order of their groups. *)
Definition stable_order_by_desc : list (string * Z) -> list (string * Z) :=
  sort_desc (fun g => snd g).

(** ** create_rest_mappings_demo.py: the coverage query of [verify_mappings] *)

(** A stable sort into ascending vendor-name order ([ORDER BY v.vendor_name]). *)
Fixpoint insert_by_name {A : Type} (name : A -> string) (x : A) (l : list A)
  : list A :=
  match l with
  | [] => [x]
  | y :: l' =>
      if String.ltb (name y) (name x) || String.eqb (name y) (name x)
      then y :: insert_by_name name x l'
      else x :: l
  end.

Definition sort_by_name {A : Type} (name : A -> string) (l : list A) : list A :=
  fold_right (insert_by_name name) [] l.

(** The canonical fields [dt JOIN data_type_fields JOIN canonical_fields]
    pairs with one data type. *)
Definition fields_of_type (db : Database) (dt : CanonicalDataType)
  : list CanonicalField :=
  flat_map
    (fun dtf =>
       filter (fun cf => dtf_canonical_field_id dtf =? canonical_field_id cf)
         (canonical_fields db))
    (filter (fun dtf => data_type_id dt =? dtf_data_type_id dtf)
       (data_type_fields db)).

(** The mappings the LEFT JOIN pairs with one (vendor, data type, field):
    same vendor and canonical field, active, of the data type's name as
    entity type, REST-sourced. *)
Definition rest_mappings_of (db : Database) (v : Vendor)
    (dt : CanonicalDataType) (cf : CanonicalField) : list FieldMapping :=
  filter (fun fm => (vendor_id v =? fm_vendor_id fm)
                    && (canonical_field_id cf =? fm_canonical_field_id fm)
                    && is_active fm
                    && String.eqb (entity_type fm) (data_type_name dt)
                    && String.eqb (source_type fm) "rest")
    (field_mappings db).

Record CoverageRow := mkCoverageRow {
  cr_vendor_name : string;
  cr_data_type_name : string;
  cr_fields_defined : Z;
  cr_fields_mapped : Z;
  cr_ratio : float
}.

(** The row of one group ([vendor_id] and [data_type_id] are the tables'
    primary keys, so a group is a pair of rows).  [coverage_percent] is
    SQLite's ROUND(..., 1) of [cr_ratio]; the row keeps ROUND's argument,
    [fields_mapped * 100.0 / fields_defined]. *)
Definition coverage_row (db : Database) (v : Vendor) (dt : CanonicalDataType)
  : CoverageRow :=
  let fields := fields_of_type db dt in
  let defined :=
    Z.of_nat (List.length (nodup Z.eq_dec (map canonical_field_id fields))) in
  let mapped :=
    Z.of_nat
      (List.length
         (nodup Z.eq_dec
            (map fm_canonical_field_id
               (flat_map (rest_mappings_of db v dt) fields)))) in
  mkCoverageRow (vendor_name v) (data_type_name dt) defined mapped
    (PrimFloat.div (PrimFloat.mul (float_of_Z mapped) (float_of_Z 100))
                   (float_of_Z defined)).

(** The ticker coverage rows of [verify_mappings]; a (vendor, data type)
    pair without joined fields forms no group. *)
Definition verify_ticker_coverage (db : Database) : list CoverageRow :=
  sort_by_name cr_vendor_name
    (flat_map
       (fun v =>
          map (coverage_row db v)
            (filter (fun dt => String.eqb (data_type_name dt) "ticker"
                               && negb (match fields_of_type db dt with
                                        | [] => true
                                        | _ :: _ => false
                                        end))
               (canonical_data_types db)))
       (vendors db)).

(** ** Resolution *)

(** Modelled from the spec: [resolve] is not among the sources (no script
    reads [priority]).  Per the spec, for each canonical field the entity
    type requires (via [data_type_fields]) it gives the highest-priority
    active mapping whose vendor, entity type and source type match, ties
    broken by most recently created; a field without one is reported
    unmapped ([None]).  Rows are appended on INSERT, so the later row of
    the table is the more recently created. *)
Definition candidates (db : Database) (vendor : Z) (etype stype : string)
    (cf : Z) : list FieldMapping :=
  filter (fun fm => is_active fm
                    && (fm_vendor_id fm =? vendor)
                    && String.eqb (entity_type fm) etype
                    && String.eqb (source_type fm) stype
                    && (fm_canonical_field_id fm =? cf))
    (field_mappings db).

Definition prefer (best : option FieldMapping) (fm : FieldMapping)
  : option FieldMapping :=
  match best with
  | None => Some fm
  | Some b => if priority b <=? priority fm then Some fm else Some b
  end.

Definition winner (l : list FieldMapping) : option FieldMapping :=
  fold_left prefer l None.

Definition required_fields (db : Database) (etype : string) : list Z :=
  flat_map
    (fun dt => map canonical_field_id (fields_of_type db dt))
    (filter (fun dt => String.eqb (data_type_name dt) etype)
       (canonical_data_types db)).

Definition resolve (db : Database) (vendor : Z) (etype stype : string)
  : list (Z * option FieldMapping) :=
  map (fun cf => (cf, winner (candidates db vendor etype stype cf)))
    (required_fields db etype).

(** The vendor field path [resolve] hands out for one canonical field. *)
Definition resolved_path (db : Database) (vendor : Z) (etype stype : string)
    (cf : Z) : option string :=
  match find (fun entry => fst entry =? cf) (resolve db vendor etype stype) with
  | Some (_, Some fm) => Some (vendor_field_path fm)
  | _ => None
  end.

(** ** Coverage as the specification words it *)

(** Modelled from the spec: the coverage numerator in the spec's words, to
    compare with what update_status.py counts.  The number of distinct
    canonical fields required for the entity type (via [data_type_fields])
    that have at least one active mapping of the vendor for that entity
    type. *)
Definition spec_fields_mapped (db : Database) (vendor : Z) (etype : string)
  : Z :=
  Z.of_nat
    (List.length
       (filter
          (fun cf =>
             existsb (fun fm => is_active fm
                                && (fm_vendor_id fm =? vendor)
                                && String.eqb (entity_type fm) etype
                                && (fm_canonical_field_id fm =? cf))
               (field_mappings db))
          (nodup Z.eq_dec (required_fields db etype)))).

(** Modelled from the spec: no script among the sources deactivates a
    mapping; the spec's "deactivating (is_active = false)" is
    [UPDATE field_mappings SET is_active = 0 WHERE mapping_id = ?]. *)
Definition deactivate (db : Database) (mid : Z) : Database :=
  with_field_mappings db
    (map (fun fm =>
            if mapping_id fm =? mid
            then mkFieldMapping (mapping_id fm) (fm_vendor_id fm)
                   (fm_canonical_field_id fm) (source_type fm) (entity_type fm)
                   (vendor_field_path fm) (fm_endpoint_id fm) (fm_channel_id fm)
                   (transformation_rule fm) (priority fm) false
            else fm)
       (field_mappings db)).

(** What SQL asks of [ORDER BY ticker_mappings DESC]: the same rows, in
    descending count order. *)
Definition engine_sorts (order_by_desc : list (string * Z) -> list (string * Z))
  : Prop :=
  forall l, Permutation l (order_by_desc l)
            /\ StronglySorted (fun a b => snd b <= snd a) (order_by_desc l).

(** ** Example catalogs *)

Definition seed_fields : list CanonicalField :=
  [ mkCanonicalField 1 "symbol"; mkCanonicalField 2 "last_price";
    mkCanonicalField 3 "bid_price"; mkCanonicalField 4 "ask_price";
    mkCanonicalField 5 "best_bid_size"; mkCanonicalField 6 "best_ask_size";
    mkCanonicalField 7 "high_24h"; mkCanonicalField 8 "low_24h";
    mkCanonicalField 9 "open_24h"; mkCanonicalField 10 "volume_24h";
    mkCanonicalField 11 "timestamp"; mkCanonicalField 12 "volume_30d" ].

(** Three vendors after discovery, twelve canonical ticker fields, no
    mapping yet.  Zaif has its ticker endpoint but no last_price endpoint. *)
Definition seed_db : Database :=
  mkDatabase
    [ mkVendor 1 "bitmart"; mkVendor 2 "korbit"; mkVendor 3 "zaif" ]
    [ mkDataType 1 "ticker" ]
    seed_fields
    (map (fun cf => mkDataTypeField 1 (canonical_field_id cf)) seed_fields)
    [ mkEndpoint 1 3 "/api/1/ticker/{currency_pair}" "GET";
      mkEndpoint 2 2 "/v1/ticker" "GET" ]
    [ mkChannel 1 1 "spot/ticker"; mkChannel 2 2 "ticker" ]
    [].



(** One vendor, one canonical ticker field, one active mapping. *)
Definition single_mapping_db : Database :=
  mkDatabase
    [ mkVendor 1 "korbit" ]
    [ mkDataType 1 "ticker" ]
    [ mkCanonicalField 1 "last_price" ]
    [ mkDataTypeField 1 1 ]
    []
    [ mkChannel 1 1 "ticker" ]
    [ mkFieldMapping 1 1 1 "websocket" "ticker" "last" None (Some 1)
        (Some string_to_numeric) 0 true ].


(** 2001 canonical ticker fields; vendor [b] has one ticker mapping and
    vendor [a] none, so both round to 0.0 percent. *)
Definition wide_fields : list CanonicalField :=
  map (fun n => mkCanonicalField (Z.of_nat n)
                  ("field_" ++ DecimalString.NilZero.string_of_uint (Nat.to_uint n)))
    (seq 1 2001).

Definition wide_db : Database :=
  mkDatabase
    [ mkVendor 1 "a"; mkVendor 2 "b" ]
    [ mkDataType 1 "ticker" ]
    wide_fields
    (map (fun cf => mkDataTypeField 1 (canonical_field_id cf)) wide_fields)
    []
    [ mkChannel 1 2 "ticker" ]
    [ mkFieldMapping 1 2 1 "websocket" "ticker" "last" None (Some 1)
        (Some string_to_numeric) 0 true ].

(** The specification's scenario for BitMart's [last_price]: a priority-10
    mapping on [last_price] and a priority-0 mapping on [close_24h], in
    either order of creation. *)
Definition scenario_last_price (id : Z) : FieldMapping :=
  mkFieldMapping id 1 2 "websocket" "ticker" "last_price" None (Some 1)
    (Some string_to_numeric) 10 true.

Definition scenario_close_24h (id : Z) : FieldMapping :=
  mkFieldMapping id 1 2 "websocket" "ticker" "close_24h" None (Some 1)
    (Some string_to_numeric) 0 true.

Definition scenario_db : Database :=
  with_field_mappings seed_db [ scenario_last_price 1; scenario_close_24h 2 ].

Definition scenario_db_reversed : Database :=
  with_field_mappings seed_db [ scenario_close_24h 1; scenario_last_price 2 ].

(** ** Vocabulary of the properties *)

(** Two stores with the same catalog tables, whatever their mappings. *)
Definition same_catalog (a b : Database) : Prop :=
  vendors a = vendors b
  /\ canonical_data_types a = canonical_data_types b
  /\ canonical_fields a = canonical_fields b
  /\ data_type_fields a = data_type_fields b
  /\ rest_endpoints a = rest_endpoints b
  /\ websocket_channels a = websocket_channels b.



(** What the specification asks of the mapping resolved among the
    candidates [l], listed in order of creation: none only if there is no
    candidate; otherwise a candidate that none exceeds in priority and that
    no candidate created after it equals in priority. *)
Definition highest_priority_most_recent (l : list FieldMapping)
    (r : option FieldMapping) : Prop :=
  match r with
  | None => l = []
  | Some m =>
      exists earlier later,
        l = (earlier ++ m :: later)%list
        /\ Forall (fun x => priority x <= priority m) earlier
        /\ Forall (fun x => priority x < priority m) later
  end.

(** A stored mapping references exactly one source -- an endpoint for a
    REST mapping, a channel for a WebSocket mapping -- and that source
    belongs to the mapping's own vendor. *)
Definition references_one_source (db : Database) (fm : FieldMapping) : bool :=
  match fm_endpoint_id fm, fm_channel_id fm with
  | Some e, None =>
      String.eqb (source_type fm) "rest"
      && existsb (fun ep => (endpoint_id ep =? e)
                            && (ep_vendor_id ep =? fm_vendor_id fm))
           (rest_endpoints db)
  | None, Some c =>
      String.eqb (source_type fm) "websocket"
      && existsb (fun ch => (channel_id ch =? c)
                            && (ch_vendor_id ch =? fm_vendor_id fm))
           (websocket_channels db)
  | _, _ => false
  end.



(** ** create_rest_mappings_demo.py: registration *)

Module RestTickerMapper.

(** [get_endpoint_id]: the vendor's endpoint of that path and method. *)
Definition get_endpoint_id (db : Database) (vendor : Z) (path method : string)
  : option Z :=
  option_map endpoint_id
    (find (fun ep => (ep_vendor_id ep =? vendor)
                     && String.eqb (ep_path ep) path
                     && String.eqb (ep_method ep) method)
       (rest_endpoints db)).

(** The existence check of [create_field_mapping]:
    [WHERE vendor_id = ? AND canonical_field_id = ? AND vendor_field_path = ?
     AND endpoint_id = ? AND source_type = 'rest']. *)
Definition endpoint_key (vendor cf : Z) (path : string) (endpoint : Z)
    (fm : FieldMapping) : bool :=
  (fm_vendor_id fm =? vendor)
  && (fm_canonical_field_id fm =? cf)
  && String.eqb (vendor_field_path fm) path
  && null_eqb (fm_endpoint_id fm) endpoint
  && String.eqb (source_type fm) "rest".

Definition endpoint_mapping_exists (db : Database) (vendor cf : Z)
    (path : string) (endpoint : Z) : bool :=
  existsb (endpoint_key vendor cf path endpoint) (field_mappings db).

Definition coinbase_mappings : list BitmartProposal :=
  [ ("bid", "bid_price", string_to_numeric, "ticker");
    ("ask", "ask_price", string_to_numeric, "ticker");
    ("price", "last_price", string_to_numeric, "ticker");
    ("volume", "volume_24h", string_to_numeric, "ticker");
    ("high", "high_24h", string_to_numeric, "ticker");
    ("low", "low_24h", string_to_numeric, "ticker");
    ("open", "open_24h", string_to_numeric, "ticker") ].

Definition binance_mappings : list BitmartProposal :=
  [ ("bidPrice", "bid_price", string_to_numeric, "ticker");
    ("bidQty", "best_bid_size", string_to_numeric, "ticker");
    ("askPrice", "ask_price", string_to_numeric, "ticker");
    ("askQty", "best_ask_size", string_to_numeric, "ticker");
    ("lastPrice", "last_price", string_to_numeric, "ticker");
    ("highPrice", "high_24h", string_to_numeric, "ticker");
    ("lowPrice", "low_24h", string_to_numeric, "ticker");
    ("openPrice", "open_24h", string_to_numeric, "ticker");
    ("volume", "volume_24h", string_to_numeric, "ticker");
    ("symbol", "symbol", identity, "ticker");
    ("closeTime", "timestamp", ms_to_datetime, "ticker") ].

Definition kraken_mappings : list BitmartProposal :=
  [ ("result.{pair}.a[0]", "ask_price", string_to_numeric, "ticker");
    ("result.{pair}.b[0]", "bid_price", string_to_numeric, "ticker");
    ("result.{pair}.c[0]", "last_price", string_to_numeric, "ticker");
    ("result.{pair}.h[1]", "high_24h", string_to_numeric, "ticker");
    ("result.{pair}.l[1]", "low_24h", string_to_numeric, "ticker");
    ("result.{pair}.o", "open_24h", string_to_numeric, "ticker");
    ("result.{pair}.v[1]", "volume_24h", string_to_numeric, "ticker") ].

Definition bitfinex_mappings : list BitmartProposal :=
  [ ("[0]", "bid_price", identity, "ticker");
    ("[1]", "best_bid_size", identity, "ticker");
    ("[2]", "ask_price", identity, "ticker");
    ("[3]", "best_ask_size", identity, "ticker");
    ("[6]", "last_price", identity, "ticker");
    ("[7]", "volume_24h", identity, "ticker");
    ("[8]", "high_24h", identity, "ticker");
    ("[9]", "low_24h", identity, "ticker") ].

Section Passes.

(** The integrity constraints of the store, as for the WebSocket passes. *)
Variable constraints_ok : Database -> NewMapping -> bool.

(** [RestTickerMapper.create_field_mapping]: the new store, the line logged
    and the returned flag.  A successful INSERT is committed at once; a
    failed one changed nothing, so the rollback restores the store as it
    was. *)
Definition create_field_mapping (db : Database) (vendor cf : Z)
    (path : string) (endpoint : Z) (etype : string)
    (rule : option TransformationRule) (prio : Z)
  : Database * Outcome * bool :=
  if endpoint_mapping_exists db vendor cf path endpoint
  then (db, MappingAlreadyExists, true)
  else
    match insert_field_mapping constraints_ok db
            (mkNewMapping vendor cf "rest" etype path (Some endpoint) None
               rule prio true) with
    | Some db' => (db', MappingCreated, true)
    | None => (db, InsertFailed, false)
    end.

(** One turn of the loop the four [map_*_rest_ticker] methods share;
    [create_field_mapping] is called without [priority], so with its
    default 0. *)
Definition rest_step (vendor endpoint : Z) (st : BitmartState)
    (p : BitmartProposal) : BitmartState :=
  let '(vendor_path, canonical_name, rule, etype) := p in
  match found (get_canonical_field_id (bs_db st) canonical_name) with
  | None =>
      mkBitmartState (bs_db st) (bs_created st) (bs_failed st + 1)
        (bs_log st ++ [(vendor_path, canonical_name, CanonicalFieldNotFound)])
  | Some cf =>
      let '(db', line, ok) :=
        create_field_mapping (bs_db st) vendor cf vendor_path endpoint etype
          (Some rule) 0 in
      if ok
      then mkBitmartState db' (bs_created st + 1) (bs_failed st)
             (bs_log st ++ [(vendor_path, canonical_name, line)])
      else mkBitmartState db' (bs_created st) (bs_failed st + 1)
             (bs_log st ++ [(vendor_path, canonical_name, line)])
  end.

(** The body the four [map_*_rest_ticker] methods share: they differ in
    the vendor name, the endpoint path and the list of mappings.  The
    Python return value is [bs_created]. *)
Definition map_rest_ticker_over (vendor_name endpoint_path : string)
    (batch : list BitmartProposal) (db : Database) : BitmartState :=
  match found (get_vendor_id db vendor_name) with
  | None => mkBitmartState db 0 0 []
  | Some vendor =>
      match found (get_endpoint_id db vendor endpoint_path "GET") with
      | None => mkBitmartState db 0 0 []
      | Some endpoint =>
          fold_left (rest_step vendor endpoint) batch
            (mkBitmartState db 0 0 [])
      end
  end.

Definition map_coinbase_rest_ticker : Database -> BitmartState :=
  map_rest_ticker_over "coinbase" "/products/{product_id}/ticker"
    coinbase_mappings.

Definition map_binance_rest_ticker : Database -> BitmartState :=
  map_rest_ticker_over "binance" "/api/v3/ticker/24hr" binance_mappings.

Definition map_kraken_rest_ticker : Database -> BitmartState :=
  map_rest_ticker_over "kraken" "/0/public/Ticker" kraken_mappings.

Definition map_bitfinex_rest_ticker : Database -> BitmartState :=
  map_rest_ticker_over "bitfinex" "/v2/ticker/{symbol}" bitfinex_mappings.

(** [map_all_rest_tickers]: the four passes in turn on the same
    connection; the store they leave and the [results] dictionary. *)
Definition map_all_rest_tickers (db : Database)
  : Database * list (string * Z) :=
  let coinbase := map_coinbase_rest_ticker db in
  let binance := map_binance_rest_ticker (bs_db coinbase) in
  let kraken := map_kraken_rest_ticker (bs_db binance) in
  let bitfinex := map_bitfinex_rest_ticker (bs_db kraken) in
  (bs_db bitfinex,
   [ ("coinbase", bs_created coinbase); ("binance", bs_created binance);
     ("kraken", bs_created kraken); ("bitfinex", bs_created bitfinex) ]).

End Passes.




End RestTickerMapper.

(** ** create_bitmart_mappings.py: [verify_mappings] *)

(** The BitMart rows the two counting queries of [verify_mappings] see:
    [WHERE fm.vendor_id = ? AND fm.channel_id = ?], with the ids the two
    lookups returned.  A lookup that found nothing binds NULL, which no row
    equals. *)
Definition bitmart_verify_rows (db : Database) : list FieldMapping :=
  match get_vendor_id db "bitmart" with
  | None => []
  | Some vendor =>
      match get_websocket_channel_id db vendor "spot/ticker" with
      | None => []
      | Some channel =>
          filter (fun fm => (fm_vendor_id fm =? vendor)
                            && null_eqb (fm_channel_id fm) channel)
            (field_mappings db)
      end
  end.

(** [total_mappings]: the count over [field_mappings JOIN canonical_fields]. *)
Definition bitmart_verify_total_mappings (db : Database) : Z :=
  Z.of_nat
    (List.length
       (flat_map
          (fun fm =>
             filter (fun cf => fm_canonical_field_id fm =? canonical_field_id cf)
               (canonical_fields db))
          (bitmart_verify_rows db))).

(** [by_entity_type]: one count per entity type ([GROUP BY fm.entity_type]). *)
Definition bitmart_verify_by_entity_type (db : Database) : list (string * Z) :=
  map (fun etype =>
         (etype,
          Z.of_nat
            (List.length
               (filter (fun fm => String.eqb (entity_type fm) etype)
                  (bitmart_verify_rows db)))))
    (nodup string_dec (map entity_type (bitmart_verify_rows db))).

(** ** update_status.py: the other counts *)

Definition get_total_exchanges (db : Database) : Z :=
  Z.of_nat (List.length (vendors db)).

Definition get_total_field_mappings (db : Database) : Z :=
  Z.of_nat (List.length (field_mappings db)).

(** The rows [vendors LEFT JOIN field_mappings ON vendor_id] pairs with one
    vendor row. *)
Definition mappings_of (db : Database) (v : Vendor) : list FieldMapping :=
  filter (fun fm => vendor_id v =? fm_vendor_id fm) (field_mappings db).

(** [COUNT(fm.mapping_id)] of the group of one vendor name. *)
Definition count_mappings (db : Database) (name : string) : Z :=
  Z.of_nat
    (List.length
       (flat_map (mappings_of db)
          (filter (fun v => String.eqb (vendor_name v) name) (vendors db)))).

Definition mapping_groups (db : Database) : list (string * Z) :=
  map (fun name => (name, count_mappings db name))
    (nodup string_dec (map vendor_name (vendors db))).

(** [get_exchange_mappings], for an engine order of
    [ORDER BY mapping_count DESC]. *)
Definition get_exchange_mappings
    (order_by_desc : list (string * Z) -> list (string * Z)) (db : Database)
  : list (string * Z) :=
  order_by_desc (mapping_groups db).

(** The sum of the counts of a list of (name, count) rows. *)
Definition sum_counts (rows : list (string * Z)) : Z :=
  fold_right (fun row acc => snd row + acc) 0 rows.

(** [get_average_ticker_coverage], in tenths of a percent.  [float_sum] is
    Python's built-in [sum] over the coverage floats (its summation
    algorithm differs between Python versions); a coverage of [t] tenths is
    the float nearest to [t / 10]. *)
Definition get_average_ticker_coverage
    (order_by_desc : list (string * Z) -> list (string * Z))
    (float_sum : list float -> float) (db : Database) : Z :=
  match get_exchange_ticker_coverage order_by_desc db with
  | [] => 0
  | coverage_data =>
      round1
        (PrimFloat.div
           (float_sum
              (map (fun row => PrimFloat.div (float_of_Z (snd row))
                                             (float_of_Z 10))
                 coverage_data))
           (float_of_Z (Z.of_nat (List.length coverage_data))))
  end.

(** ** Vocabulary of the further properties *)

(** The store's constraints look at the catalog tables and the new row
    only, as foreign keys do. *)
Definition catalog_only (ok : Database -> NewMapping -> bool) : Prop :=
  forall a b r, same_catalog a b -> ok a r = ok b r.

(** [later] has the catalog of [earlier] and every mapping stored in it. *)
Definition extends (later earlier : Database) : Prop :=
  same_catalog earlier later
  /\ incl (field_mappings earlier) (field_mappings later).

(** How many logged lines carry one outcome. *)
Definition outcome_eqb (a b : Outcome) : bool :=
  match a, b with
  | CanonicalFieldNotFound, CanonicalFieldNotFound => true
  | MappingAlreadyExists, MappingAlreadyExists => true
  | MappingCreated, MappingCreated => true
  | InsertFailed, InsertFailed => true
  | _, _ => false
  end.

Definition count_outcome (o : Outcome) (log : list LogLine) : Z :=
  Z.of_nat (List.length (filter (fun line => outcome_eqb (snd line) o) log)).

(** The loop turn the Korbit and Zaif scripts share, for any way [row] of
    building the values of the INSERT from the canonical id and the
    proposal. *)
Definition path_step (ok : Database -> NewMapping -> bool) (vendor : Z)
    (row : Z -> Proposal -> NewMapping) (st : MapperState) (p : Proposal)
  : MapperState :=
  match found (get_canonical_field_id (ms_db st) (snd (fst p))) with
  | None =>
      mkMapperState (ms_db st) (ms_created st)
        (ms_log st ++ [(fst (fst p), snd (fst p), CanonicalFieldNotFound)])
  | Some cf =>
      if mapping_exists (ms_db st) vendor (fst (fst p)) cf
      then mkMapperState (ms_db st) (ms_created st)
             (ms_log st ++ [(fst (fst p), snd (fst p), MappingAlreadyExists)])
      else
        match insert_field_mapping ok (ms_db st) (row cf p) with
        | Some db' =>
            mkMapperState db' (ms_created st + 1)
              (ms_log st ++ [(fst (fst p), snd (fst p), MappingCreated)])
        | None =>
            mkMapperState (ms_db st) (ms_created st)
              (ms_log st ++ [(fst (fst p), snd (fst p), InsertFailed)])
        end
  end.

(** The values the Korbit and the Zaif loop insert. *)
Definition korbit_row (vendor channel : Z) (cf : Z) (p : Proposal)
  : NewMapping :=
  mkNewMapping vendor cf "websocket" "ticker" (fst (fst p)) None (Some channel)
    (Some (snd p)) default_priority default_is_active.

Definition zaif_row (vendor ticker_endpoint : Z)
    (last_price_endpoint : option Z) (cf : Z) (p : Proposal) : NewMapping :=
  mkNewMapping vendor cf "rest" "ticker" (fst (fst p))
    (if String.eqb (fst (fst p)) "last_price"
     then last_price_endpoint else Some ticker_endpoint)
    None (Some (snd p)) default_priority default_is_active.

(** A [row] builder that stores the vendor, canonical id and path it was
    checked with. *)
Definition row_of_path (vendor : Z) (row : Z -> Proposal -> NewMapping)
  : Prop :=
  forall cf p,
    nm_vendor_id (row cf p) = vendor
    /\ nm_canonical_field_id (row cf p) = cf
    /\ nm_vendor_field_path (row cf p) = fst (fst p).

(** The loop turn the BitMart and the REST scripts share, for any
    existence check [key] and any way [row] of building the values of the
    INSERT. *)
Definition keyed_step (ok : Database -> NewMapping -> bool)
    (key : Z -> BitmartProposal -> FieldMapping -> bool)
    (row : Z -> BitmartProposal -> NewMapping) (st : BitmartState)
    (p : BitmartProposal) : BitmartState :=
  match found (get_canonical_field_id (bs_db st) (snd (fst (fst p)))) with
  | None =>
      mkBitmartState (bs_db st) (bs_created st) (bs_failed st + 1)
        (bs_log st
         ++ [(fst (fst (fst p)), snd (fst (fst p)), CanonicalFieldNotFound)])
  | Some cf =>
      if existsb (key cf p) (field_mappings (bs_db st))
      then mkBitmartState (bs_db st) (bs_created st + 1) (bs_failed st)
             (bs_log st
              ++ [(fst (fst (fst p)), snd (fst (fst p)), MappingAlreadyExists)])
      else
        match insert_field_mapping ok (bs_db st) (row cf p) with
        | Some db' =>
            mkBitmartState db' (bs_created st + 1) (bs_failed st)
              (bs_log st
               ++ [(fst (fst (fst p)), snd (fst (fst p)), MappingCreated)])
        | None =>
            mkBitmartState (bs_db st) (bs_created st) (bs_failed st + 1)
              (bs_log st
               ++ [(fst (fst (fst p)), snd (fst (fst p)), InsertFailed)])
        end
  end.

(** The checks and values of the BitMart loop and of the REST loops. *)
Definition bitmart_key (vendor channel : Z) (cf : Z) (p : BitmartProposal)
  : FieldMapping -> bool :=
  channel_key vendor cf (fst (fst (fst p))) channel.

Definition bitmart_row (vendor channel : Z) (cf : Z) (p : BitmartProposal)
  : NewMapping :=
  mkNewMapping vendor cf "websocket" (snd p) (fst (fst (fst p))) None
    (Some channel) (Some (snd (fst p))) 10 true.

Definition rest_key (vendor endpoint : Z) (cf : Z) (p : BitmartProposal)
  : FieldMapping -> bool :=
  RestTickerMapper.endpoint_key vendor cf (fst (fst (fst p))) endpoint.

Definition rest_row (vendor endpoint : Z) (cf : Z) (p : BitmartProposal)
  : NewMapping :=
  mkNewMapping vendor cf "rest" (snd p) (fst (fst (fst p))) (Some endpoint)
    None (Some (snd (fst p))) 0 true.

(** A [row] builder whose stored row passes the existence check it was
    inserted under. *)
Definition row_has_key (key : Z -> BitmartProposal -> FieldMapping -> bool)
    (row : Z -> BitmartProposal -> NewMapping) : Prop :=
  forall db cf p, key cf p (stored_row db (row cf p)) = true.

(** The states the Korbit and the Zaif pass leave on the seeded catalog. *)
Definition seed_korbit_state : MapperState :=
  fold_left (korbit_step fk_constraints 2 2) korbit_proposed_mappings
    (mkMapperState seed_db 0 []).

Definition seed_zaif_state : MapperState :=
  fold_left (zaif_step fk_constraints 3 1 None) zaif_proposed_mappings
    (mkMapperState seed_db 0 []).

(** The four vendors of the REST demo after discovery, with their ticker
    endpoints and the canonical ticker fields, no mapping yet. *)
Definition rest_demo_db : Database :=
  mkDatabase
    [ mkVendor 1 "coinbase"; mkVendor 2 "binance"; mkVendor 3 "kraken";
      mkVendor 4 "bitfinex" ]
    [ mkDataType 1 "ticker" ]
    seed_fields
    (map (fun cf => mkDataTypeField 1 (canonical_field_id cf)) seed_fields)
    [ mkEndpoint 1 1 "/products/{product_id}/ticker" "GET";
      mkEndpoint 2 2 "/api/v3/ticker/24hr" "GET";
      mkEndpoint 3 3 "/0/public/Ticker" "GET";
      mkEndpoint 4 4 "/v2/ticker/{symbol}" "GET" ]
    []
    [].

(** [seed_db] where Zaif also has its last_price endpoint. *)
Definition zaif_full_db : Database :=
  mkDatabase (vendors seed_db) (canonical_data_types seed_db)
    (canonical_fields seed_db) (data_type_fields seed_db)
    (rest_endpoints seed_db
     ++ [ mkEndpoint 3 3 "/api/1/last_price/{currency_pair}" "GET" ])
    (websocket_channels seed_db) [].

(** A LIKE pattern without wildcard whose letters are in lower case. *)
Fixpoint literal (p : string) : bool :=
  match p with
  | EmptyString => true
  | String c p' =>
      negb (Ascii.eqb c "%") && negb (Ascii.eqb c "_")
      && Ascii.eqb (ascii_lower c) c && literal p'
  end.

(** The sum of [g] over a list. *)
Definition total {A : Type} (g : A -> Z) (l : list A) : Z :=
  fold_right (fun x acc => g x + acc) 0 l.

(** Every stored mapping names a vendor row ([field_mappings.vendor_id]
    references [vendors]). *)
Definition mappings_have_vendor (db : Database) : bool :=
  forallb (fun fm => existsb (fun v => vendor_id v =? fm_vendor_id fm)
                       (vendors db))
    (field_mappings db).

(** * Properties *)

(** ** The catalog tables are left alone by registration *)

Lemma same_catalog_refl : forall db, same_catalog db db.
Proof. intros db; repeat split. Qed.

Lemma same_catalog_trans :
  forall a b c, same_catalog a b -> same_catalog b c -> same_catalog a c.
Proof.
  unfold same_catalog; intros a b c Hab Hbc.
  destruct Hab as (?&?&?&?&?&?), Hbc as (?&?&?&?&?&?).
  repeat split; congruence.
Qed.

Lemma with_field_mappings_same_catalog :
  forall db fms, same_catalog db (with_field_mappings db fms).
Proof. intros db fms; repeat split. Qed.

Lemma same_catalog_canonical_id :
  forall a b name, same_catalog a b ->
    get_canonical_field_id a name = get_canonical_field_id b name.
Proof.
  intros a b name (_&_&Hcf&_). unfold get_canonical_field_id. now rewrite Hcf.
Qed.

Create HintDb catalog.
#[local] Hint Resolve same_catalog_refl with_field_mappings_same_catalog : catalog.

Section RegistrationFacts.

Variable ok : Database -> NewMapping -> bool.

Lemma insert_field_mapping_inv :
  forall db r db',
    insert_field_mapping ok db r = Some db' ->
    db' = with_field_mappings db (field_mappings db ++ [stored_row db r]).
Proof.
  unfold insert_field_mapping; intros db r db' H.
  destruct (ok db r); congruence.
Qed.

Lemma insert_same_catalog :
  forall db r db', insert_field_mapping ok db r = Some db' -> same_catalog db db'.
Proof.
  intros db r db' H. apply insert_field_mapping_inv in H. subst.
  auto with catalog.
Qed.






(** *** A skipped record changes nothing but the log *)













End RegistrationFacts.



(** ** Registering a mapping twice *)





Section Idempotence.

Variable ok : Database -> NewMapping -> bool.







End Idempotence.




(** ** Dry runs *)


Section LoggedLines.

Variable ok : Database -> NewMapping -> bool.





End LoggedLines.







(** ** Resolution by priority *)

Lemma winner_from :
  forall l b m,
    fold_left prefer l (Some b) = Some m ->
    (m = b /\ Forall (fun x => priority x < priority b) l)
    \/ (exists l1 l2,
          l = (l1 ++ m :: l2)%list
          /\ priority b <= priority m
          /\ Forall (fun x => priority x <= priority m) l1
          /\ Forall (fun x => priority x < priority m) l2).
Proof.
  induction l as [|x l IH]; intros b m H; simpl in H.
  - injection H as <-. left. split; [reflexivity | constructor].
  - destruct (priority b <=? priority x) eqn:Hle.
    + apply Z.leb_le in Hle. right.
      destruct (IH x m H) as [[-> Hall] | (l1 & l2 & -> & Hxm & H1 & H2)].
      * exists [], l. repeat split; [exact Hle | constructor | exact Hall].
      * exists (x :: l1), l2. repeat split; try assumption; [lia|].
        constructor; assumption.
    + apply Z.leb_gt in Hle.
      destruct (IH b m H) as [[-> Hall] | (l1 & l2 & -> & Hbm & H1 & H2)].
      * left. split; [reflexivity|]. constructor; assumption.
      * right. exists (x :: l1), l2. repeat split; try assumption.
        constructor; [lia | assumption].
Qed.

Lemma winner_keeps :
  forall l m,
    Forall (fun x => priority x < priority m) l ->
    fold_left prefer l (Some m) = Some m.
Proof.
  induction l as [|x l IH]; intros m H; simpl; [reflexivity|].
  inversion H as [|? ? Hx Hl]; subst.
  destruct (priority m <=? priority x) eqn:Hle;
    [apply Z.leb_le in Hle; lia | now apply IH].
Qed.

Lemma winner_reaches :
  forall l1 acc m l2,
    Forall (fun x => priority x <= priority m) l1 ->
    match acc with Some b => priority b <= priority m | None => True end ->
    Forall (fun x => priority x < priority m) l2 ->
    fold_left prefer (l1 ++ m :: l2) acc = Some m.
Proof.
  induction l1 as [|x l1 IH]; intros acc m l2 H1 Hacc H2; simpl.
  - destruct acc as [b|]; simpl.
    + apply Z.leb_le in Hacc. rewrite Hacc. now apply winner_keeps.
    + now apply winner_keeps.
  - inversion H1 as [|? ? Hx Hl]; subst.
    apply IH; try assumption.
    destruct acc as [b|]; simpl; [|exact Hx].
    destruct (priority b <=? priority x); assumption.
Qed.

Lemma winner_spec :
  forall l m,
    winner l = Some m
    <-> exists l1 l2,
          l = (l1 ++ m :: l2)%list
          /\ Forall (fun x => priority x <= priority m) l1
          /\ Forall (fun x => priority x < priority m) l2.
Proof.
  intros l m. unfold winner. split.
  - destruct l as [|x l]; simpl; [discriminate|]. intros H.
    destruct (winner_from l x m H) as [[-> Hall] | (l1 & l2 & -> & Hxm & H1 & H2)].
    + exists [], l. repeat split; [constructor | exact Hall].
    + exists (x :: l1), l2. repeat split; try assumption.
      constructor; assumption.
  - intros (l1 & l2 & -> & H1 & H2). now apply winner_reaches.
Qed.

Lemma winner_none : forall l, winner l = None <-> l = [].
Proof.
  intros l. split; [|intros ->; reflexivity].
  destruct l as [|x l]; [reflexivity|]. unfold winner; simpl. intros H.
  assert (Hsome : forall l b, fold_left prefer l (Some b) <> None).
  { clear. induction l as [|y l IH]; intros b; simpl; [discriminate|].
    destruct (priority b <=? priority y); apply IH. }
  now apply Hsome in H.
Qed.

Lemma winner_highest_priority_most_recent :
  forall l, highest_priority_most_recent l (winner l).
Proof.
  intros l. unfold highest_priority_most_recent.
  destruct (winner l) as [m|] eqn:Hw.
  - now apply winner_spec.
  - now apply winner_none.
Qed.

(** C2 -- priority resolution.  For every vendor, entity type and source
    type, [resolve] lists each canonical field the entity type requires with
    the mapping resolved among its matching active mappings: one that no
    other candidate exceeds in priority and that was created after every
    candidate of equal priority (none only when there is no candidate).
    In the BitMart scenario of the specification -- [last_price] mapped at
    priority 10 and [close_24h] at priority 0 -- [resolve] hands out the
    [last_price] path, whichever of the two was created first. *)
Theorem resolve_highest_priority_most_recent :
  (forall db vendor etype stype,
      map fst (resolve db vendor etype stype) = required_fields db etype
      /\ Forall (fun entry =>
                   highest_priority_most_recent
                     (candidates db vendor etype stype (fst entry)) (snd entry))
           (resolve db vendor etype stype))
  /\ resolved_path scenario_db 1 "ticker" "websocket" 2 = Some "last_price"
  /\ resolved_path scenario_db_reversed 1 "ticker" "websocket" 2
     = Some "last_price".
Proof.
  split; [|split; vm_compute; reflexivity].
  intros db vendor etype stype. unfold resolve. split.
  - rewrite map_map. simpl. apply map_id.
  - apply Forall_forall. intros entry Hin.
    apply in_map_iff in Hin as (cf & <- & _). simpl.
    apply winner_highest_priority_most_recent.
Qed.

(** On the mappings the BitMart pass itself stores, both [last_price]
    candidates carry priority 10, so the later one, [close_24h], is
    resolved. *)
Lemma bitmart_pass_resolves_close_24h :
  let db := bs_db (map_bitmart_ticker_fields fk_constraints seed_db) in
  map priority (candidates db 1 "ticker" "websocket" 2) = [10; 10]
  /\ map vendor_field_path (candidates db 1 "ticker" "websocket" 2)
     = ["data[].last_price"; "data[].close_24h"]
  /\ resolved_path db 1 "ticker" "websocket" 2 = Some "data[].close_24h".
Proof. vm_compute. repeat split. Qed.

(** ** Coverage statistics *)

Lemma total_ticker_fields_nonneg :
  forall db, 0 <= get_total_canonical_ticker_fields db.
Proof. intros db. unfold get_total_canonical_ticker_fields. lia. Qed.



(** C3, at the failing input: after the BitMart pass on the seeded catalog,
    update_status.py counts all thirteen stored rows for BitMart -- two for
    [last_price] and two for [volume_24h] among them -- against twelve
    ticker fields and reports 108.3 percent, where eleven distinct
    required fields have a mapping. *)
Theorem coverage_counts_rows_not_fields :
  let db := bs_db (map_bitmart_ticker_fields fk_constraints seed_db) in
  get_total_canonical_ticker_fields db = 12
  /\ get_exchange_ticker_coverage stable_order_by_desc db
     = [("bitmart", 13, 1083); ("korbit", 0, 0); ("zaif", 0, 0)]
  /\ spec_fields_mapped db 1 "ticker" = 11.
Proof. vm_compute. repeat split. Qed.

Lemma deactivate_keeps_ticker_mappings :
  forall db mid v,
    map mapping_id (ticker_mappings_of (deactivate db mid) v)
    = map mapping_id (ticker_mappings_of db v).
Proof.
  intros db mid v. unfold ticker_mappings_of, deactivate; simpl.
  induction (field_mappings db) as [|fm fms IH]; simpl; [reflexivity|].
  destruct (mapping_id fm =? mid); simpl;
    destruct ((vendor_id v =? fm_vendor_id fm)
              && String.eqb (entity_type fm) "ticker"); simpl;
    now rewrite IH.
Qed.

(** Deactivation never changes what update_status.py counts. *)
Lemma deactivate_keeps_count :
  forall db mid name,
    count_ticker_mappings (deactivate db mid) name = count_ticker_mappings db name.
Proof.
  intros db mid name. unfold count_ticker_mappings. f_equal.
  change (vendors (deactivate db mid)) with (vendors db).
  induction (filter (fun v => String.eqb (vendor_name v) name) (vendors db))
    as [|v vs IH]; simpl; [reflexivity|].
  rewrite !length_app, IH. f_equal.
  rewrite <- (length_map mapping_id (ticker_mappings_of (deactivate db mid) v)).
  rewrite deactivate_keeps_ticker_mappings. apply length_map.
Qed.

(** C5, at the failing input: Korbit's only mapping is deactivated, not
    deleted, yet update_status.py still counts it and reports 100.0
    percent; no required field has an active mapping any more. *)
Theorem deactivated_mapping_still_counted :
  let db := deactivate single_mapping_db 1 in
  get_exchange_ticker_coverage stable_order_by_desc single_mapping_db
  = [("korbit", 1, 1000)]
  /\ map is_active (field_mappings db) = [false]
  /\ get_exchange_ticker_coverage stable_order_by_desc db = [("korbit", 1, 1000)]
  /\ spec_fields_mapped single_mapping_db 1 "ticker" = 1
  /\ spec_fields_mapped db 1 "ticker" = 0.
Proof. vm_compute. repeat split. Qed.

(** ** Coverage leaders *)

Section SortDesc.

  Context {A : Type} (key : A -> Z).

Lemma insert_desc_perm :
  forall x l, Permutation (x :: l) (insert_desc key x l).
Proof.
  intros x l; induction l as [|y l IH]; simpl; [reflexivity|].
  destruct (key x <? key y).
  - etransitivity; [apply perm_swap | apply perm_skip, IH].
  - reflexivity.
Qed.

Lemma sort_desc_perm : forall l, Permutation l (sort_desc key l).
Proof.
  induction l as [|x l IH]; simpl; [constructor|].
  etransitivity; [apply perm_skip, IH | apply insert_desc_perm].
Qed.

Lemma insert_desc_sorted :
  forall x l,
    StronglySorted (fun a b => key b <= key a) l ->
    StronglySorted (fun a b => key b <= key a) (insert_desc key x l).
Proof.
  intros x l; induction l as [|y l IH]; intros Hs; simpl.
  - repeat constructor.
  - inversion Hs as [|? ? Hl Hy]; subst.
    destruct (key x <? key y) eqn:Hlt.
    + apply Z.ltb_lt in Hlt. constructor; [now apply IH|].
      apply Forall_forall. intros z Hz.
      apply (Permutation_in _ (Permutation_sym (insert_desc_perm x l))) in Hz.
      destruct Hz as [<- | Hz]; [lia|].
      rewrite Forall_forall in Hy. now apply Hy.
    + apply Z.ltb_ge in Hlt. constructor; [exact Hs|].
      constructor; [exact Hlt|].
      rewrite Forall_forall in Hy |- *. intros z Hz. specialize (Hy z Hz). lia.
Qed.

Lemma sort_desc_sorted :
  forall l, StronglySorted (fun a b => key b <= key a) (sort_desc key l).
Proof.
  induction l as [|x l IH]; simpl; [constructor | now apply insert_desc_sorted].
Qed.

(** Stability: the elements of one key keep their relative order. *)
Lemma insert_desc_stable :
  forall k x l,
    filter (fun a => key a =? k) (insert_desc key x l)
    = filter (fun a => key a =? k) (x :: l).
Proof.
  intros k x l; induction l as [|y l IH]; simpl; [reflexivity|].
  destruct (key x <? key y) eqn:Hlt; [|reflexivity].
  apply Z.ltb_lt in Hlt. simpl. rewrite IH. simpl.
  destruct (key x =? k) eqn:Hx, (key y =? k) eqn:Hy; try reflexivity.
  apply Z.eqb_eq in Hx, Hy. lia.
Qed.

Lemma sort_desc_stable :
  forall k l,
    filter (fun a => key a =? k) (sort_desc key l)
    = filter (fun a => key a =? k) l.
Proof.
  intros k l; induction l as [|x l IH]; simpl; [reflexivity|].
  rewrite insert_desc_stable. simpl. now rewrite IH.
Qed.

End SortDesc.

Lemma slice_to_length :
  forall {A : Type} (l : list A) n,
    0 <= n -> Z.of_nat (List.length (slice_to l n)) <= n.
Proof.
  intros A l n Hn. unfold slice_to.
  destruct (0 <=? n) eqn:Hle; [|apply Z.leb_gt in Hle; lia].
  rewrite length_firstn. lia.
Qed.

Lemma slice_to_prefix :
  forall {A : Type} (l : list A) n, exists rest, l = (slice_to l n ++ rest)%list.
Proof.
  intros A l n. unfold slice_to.
  destruct (0 <=? n); eexists; symmetry; apply firstn_skipn.
Qed.

Lemma StronglySorted_prefix :
  forall {A : Type} (R : A -> A -> Prop) (l1 l2 : list A),
    StronglySorted R (l1 ++ l2) -> StronglySorted R l1.
Proof.
  intros A R l1 l2; induction l1 as [|x l1 IH]; simpl; intros H; [constructor|].
  inversion H as [|? ? Hs Hx]; subst. constructor; [now apply IH|].
  rewrite Forall_app in Hx. tauto.
Qed.

Lemma StronglySorted_map :
  forall {A B : Type} (f : A -> B) (R : B -> B -> Prop) (l : list A),
    StronglySorted (fun a b => R (f a) (f b)) l -> StronglySorted R (map f l).
Proof.
  intros A B f R l H; induction H as [|x l Hs IH Hx]; simpl; constructor;
    [exact IH|].
  rewrite Forall_map. exact Hx.
Qed.

(** C6 (as amended) -- coverage leaders.  For every stored state, every
    engine order of the query rows and every limit, [get_coverage_leaders]
    returns the leading rows of the coverage rows ranked by coverage
    percent, descending: at most [limit] of them for a non-negative limit.
    The ranking is a stable rearrangement of the query result, so vendors
    with equal coverage percent stay in the order the query gave them (by
    ticker mapping count, then as the engine left them); vendor names are
    not compared. *)
Theorem leaders_ranked_by_percent_stable :
  forall (engine : list (string * Z) -> list (string * Z)) (db : Database)
         (limit : Z),
    let coverage := get_exchange_ticker_coverage engine db in
    let leaders := get_coverage_leaders engine db limit in
    (0 <= limit -> Z.of_nat (List.length leaders) <= limit)
    /\ StronglySorted (fun a b => snd b <= snd a) leaders
    /\ exists ranked rest,
         Permutation coverage ranked
         /\ (forall percent,
               filter (fun row => snd row =? percent) ranked
               = filter (fun row => snd row =? percent) coverage)
         /\ map (fun row => (fst (fst row), snd row)) ranked
            = (leaders ++ rest)%list.
Proof.
  intros engine db limit coverage leaders.
  set (ranked := sort_desc (fun x : string * Z * Z => snd x) coverage).
  assert (Hleaders : leaders
                     = map (fun row : string * Z * Z => (fst (fst row), snd row))
                         (slice_to ranked limit)).
  { subst leaders ranked coverage. unfold get_coverage_leaders.
    apply map_ext. intros [[vendor mappings] percent]. reflexivity. }
  destruct (slice_to_prefix ranked limit) as [rest Hrest].
  split; [|split].
  - intros Hlimit. rewrite Hleaders, length_map. now apply slice_to_length.
  - rewrite Hleaders. apply StronglySorted_map.
    apply (StronglySorted_prefix _ (slice_to ranked limit) rest).
    rewrite <- Hrest. subst ranked.
    apply (sort_desc_sorted (fun x : string * Z * Z => snd x)).
  - exists ranked, (map (fun row : string * Z * Z => (fst (fst row), snd row)) rest).
    split; [apply sort_desc_perm | split].
    + intros percent. subst ranked.
      apply (sort_desc_stable (fun x : string * Z * Z => snd x)).
    + rewrite Hleaders, <- map_app, <- Hrest. reflexivity.
Qed.

(** The two leaders of the seeded catalog after the BitMart pass. *)
Lemma leaders_ranked_by_percent_stable_witness :
  0 <= 2
  /\ Z.of_nat
       (List.length
          (get_coverage_leaders stable_order_by_desc
             (bs_db (map_bitmart_ticker_fields fk_constraints seed_db)) 2))
     <= 2.
Proof.
  split; [exact (proj1 (Z.leb_le 0 2) eq_refl)|].
  exact (proj1 (leaders_ranked_by_percent_stable stable_order_by_desc
                  (bs_db (map_bitmart_ticker_fields fk_constraints seed_db)) 2)
               (proj1 (Z.leb_le 0 2) eq_refl)).
Defined.

(** C6, the claim as stated fails: with 2001 canonical ticker fields,
    vendor [b] (one mapping) and vendor [a] (none) both stand at 0.0
    percent, and the leaders list [b] before [a], against name order. *)
Lemma leaders_tie_not_in_name_order :
  get_total_canonical_ticker_fields wide_db = 2001
  /\ get_coverage_leaders stable_order_by_desc wide_db 2 = [("b", 0); ("a", 0)]
  /\ String.ltb "a" "b" = true.
Proof. vm_compute. repeat split. Qed.

(** The same list comes out whatever the engine does with equal counts:
    the two vendors differ in count, so SQL fixes their order. *)
Lemma leaders_tie_any_engine :
  forall engine,
    engine_sorts engine ->
    get_coverage_leaders engine wide_db 2 = [("b", 0); ("a", 0)].
Proof.
  intros engine Hengine.
  unfold get_coverage_leaders, get_exchange_ticker_coverage.
  assert (Ht : get_total_canonical_ticker_fields wide_db = 2001)
    by (vm_compute; reflexivity).
  assert (Hg : vendor_groups wide_db = [("a", 0); ("b", 1)])
    by (vm_compute; reflexivity).
  rewrite Ht, Hg. change (2001 =? 0) with false. cbv iota.
  destruct (Hengine [("a", 0); ("b", 1)]) as [Hperm Hsorted].
  apply Permutation_length_2_inv in Hperm as [Hout | Hout]; rewrite Hout in *.
  - inversion Hsorted as [|? ? _ Hall]; subst.
    inversion Hall as [|? ? Hle _]; subst. simpl in Hle. lia.
  - vm_compute. reflexivity.
Qed.

(** C7, at the failing input: Zaif has its ticker endpoint but no
    last_price endpoint.  The pass goes on with [last_price_endpoint_id]
    unset and stores the [last_price] mapping as a REST mapping that
    references neither an endpoint nor a channel. *)
Theorem zaif_last_price_mapping_without_source :
  let db := db_after seed_db (zaif_create_mappings fk_constraints false seed_db) in
  select_zaif_endpoints (get_rest_endpoints seed_db 3) = (Some 1, None)
  /\ map (fun fm => (source_type fm, fm_endpoint_id fm, fm_channel_id fm))
       (filter (fun fm => String.eqb (vendor_field_path fm) "last_price")
          (field_mappings db))
     = [("rest", None, None)]
  /\ map (fun fm => (vendor_field_path fm, fm_endpoint_id fm))
       (filter (fun fm => negb (String.eqb (vendor_field_path fm) "last_price"))
          (field_mappings db))
     = [("last", Some 1); ("high", Some 1); ("low", Some 1);
        ("volume", Some 1); ("bid", Some 1); ("ask", Some 1)].
Proof. vm_compute. repeat split. Qed.

(** ** The two coverage computations *)








(** ** The WebSocket passes keep the one-source invariant *)

Lemma found_some : forall o z, found o = Some z -> o = Some z.
Proof.
  intros o z. unfold found. destruct (truthy o); [auto | discriminate].
Qed.

Lemma first_ticker_channel_owned :
  forall db v c,
    first_ticker_channel (get_websocket_channels db v) = Some c ->
    existsb (fun ch => (channel_id ch =? c) && (ch_vendor_id ch =? v))
      (websocket_channels db) = true.
Proof.
  intros db v c H. unfold first_ticker_channel in H.
  destruct (find _ (get_websocket_channels db v)) as [ch|] eqn:Hfind;
    [|discriminate].
  injection H as <-. apply find_some in Hfind as [Hin _].
  unfold get_websocket_channels in Hin. apply filter_In in Hin as [Hin Hsel].
  apply andb_true_iff in Hsel as [Hv _].
  apply existsb_exists. exists ch. split; [exact Hin|].
  now rewrite Z.eqb_refl, Hv.
Qed.

Lemma get_websocket_channel_id_owned :
  forall db v name c,
    get_websocket_channel_id db v name = Some c ->
    existsb (fun ch => (channel_id ch =? c) && (ch_vendor_id ch =? v))
      (websocket_channels db) = true.
Proof.
  intros db v name c H. unfold get_websocket_channel_id in H.
  destruct (find _ (websocket_channels db)) as [ch|] eqn:Hfind; [|discriminate].
  injection H as <-. apply find_some in Hfind as [Hin Hsel].
  apply andb_true_iff in Hsel as [Hv _].
  apply existsb_exists. exists ch. split; [exact Hin|].
  now rewrite Z.eqb_refl, Hv.
Qed.

Section OneSource.

  Variable ok : Database -> NewMapping -> bool.
  Variable db0 : Database.
  Variables v c : Z.
  Hypothesis channel_owned :
    existsb (fun ch => (channel_id ch =? c) && (ch_vendor_id ch =? v))
      (websocket_channels db0) = true.

Lemma insert_websocket_row_one_source :
  forall db cf et path rule prio active db',
    forallb (references_one_source db0) (field_mappings db) = true ->
    insert_field_mapping ok db
      (mkNewMapping v cf "websocket" et path None (Some c) rule prio active)
    = Some db' ->
    forallb (references_one_source db0) (field_mappings db') = true.
Proof.
  intros db cf et path rule prio active db' Hall Hins.
  apply insert_field_mapping_inv in Hins. subst db'. simpl.
  rewrite forallb_app, Hall. simpl.
  unfold references_one_source; simpl. now rewrite channel_owned.
Qed.

Lemma korbit_step_one_source :
  forall st p,
    forallb (references_one_source db0) (field_mappings (ms_db st)) = true ->
    forallb (references_one_source db0)
      (field_mappings (ms_db (korbit_step ok v c st p))) = true.
Proof.
  intros st [[path name] rule] Hall. unfold korbit_step.
  destruct (found (get_canonical_field_id (ms_db st) name)) as [cf|];
    [|exact Hall].
  destruct (mapping_exists (ms_db st) v path cf); [exact Hall|].
  destruct (insert_field_mapping ok (ms_db st) _) as [db'|] eqn:Hins;
    [|exact Hall].
  simpl. eapply insert_websocket_row_one_source; eauto.
Qed.

Lemma bitmart_step_one_source :
  forall st p,
    forallb (references_one_source db0) (field_mappings (bs_db st)) = true ->
    forallb (references_one_source db0)
      (field_mappings (bs_db (bitmart_step ok v c st p))) = true.
Proof.
  intros st [[[path name] rule] et] Hall. unfold bitmart_step.
  destruct (found (get_canonical_field_id (bs_db st) name)) as [cf|];
    [|exact Hall].
  unfold create_field_mapping.
  destruct (channel_mapping_exists (bs_db st) v cf path c); [exact Hall|].
  destruct (insert_field_mapping ok (bs_db st) _) as [db'|] eqn:Hins;
    [|exact Hall].
  simpl. eapply insert_websocket_row_one_source; eauto.
Qed.

Lemma korbit_loop_one_source :
  forall (batch : list Proposal) st,
    forallb (references_one_source db0) (field_mappings (ms_db st)) = true ->
    forallb (references_one_source db0)
      (field_mappings (ms_db (fold_left (korbit_step ok v c) batch st))) = true.
Proof.
  induction batch as [|p batch IH]; intros st Hall; simpl; [exact Hall|].
  apply IH. now apply korbit_step_one_source.
Qed.

Lemma bitmart_loop_one_source :
  forall (batch : list BitmartProposal) st,
    forallb (references_one_source db0) (field_mappings (bs_db st)) = true ->
    forallb (references_one_source db0)
      (field_mappings (bs_db (bitmart_loop ok v c batch st))) = true.
Proof.
  unfold bitmart_loop.
  induction batch as [|p batch IH]; intros st Hall; simpl; [exact Hall|].
  apply IH. now apply bitmart_step_one_source.
Qed.

End OneSource.

(** Every mapping the Korbit and BitMart passes store references exactly
    one source: a channel of the pass's own vendor and no endpoint.  A
    store whose mappings all reference one source of their vendor is left
    in that condition by either pass, whatever the batch. *)
Theorem websocket_passes_keep_one_source :
  forall (ok : Database -> NewMapping -> bool) (db : Database),
    forallb (references_one_source db) (field_mappings db) = true ->
    (forall batch,
        forallb (references_one_source db)
          (field_mappings
             (db_after db (korbit_create_mappings_over ok batch false db)))
        = true)
    /\ (forall batch,
          forallb (references_one_source db)
            (field_mappings (bs_db (map_bitmart_ticker_fields_over ok batch db)))
          = true).
Proof.
  intros ok db Hall. split; intros batch.
  - unfold korbit_create_mappings_over.
    destruct (found (get_vendor_id db "korbit")) as [v|]; [|exact Hall].
    destruct (get_websocket_channels db v) as [|ch chs] eqn:Hchs; [exact Hall|].
    destruct (found (first_ticker_channel (ch :: chs))) as [c|] eqn:Hc;
      [|exact Hall].
    simpl. apply korbit_loop_one_source; [|exact Hall].
    apply found_some in Hc. rewrite <- Hchs in Hc.
    now apply first_ticker_channel_owned.
  - unfold map_bitmart_ticker_fields_over.
    destruct (found (get_vendor_id db "bitmart")) as [v|]; [|exact Hall].
    destruct (found (get_websocket_channel_id db v "spot/ticker")) as [c|] eqn:Hc;
      [|exact Hall].
    apply bitmart_loop_one_source; [|exact Hall].
    apply found_some in Hc. eapply get_websocket_channel_id_owned; eauto.
Qed.

(** The two passes on the seeded catalog. *)
Lemma websocket_passes_keep_one_source_witness :
  forallb (references_one_source seed_db) (field_mappings seed_db) = true
  /\ forallb (references_one_source seed_db)
       (field_mappings
          (db_after seed_db (korbit_create_mappings fk_constraints false seed_db)))
     = true
  /\ forallb (references_one_source seed_db)
       (field_mappings (bs_db (map_bitmart_ticker_fields fk_constraints seed_db)))
     = true.
Proof.
  pose proof (websocket_passes_keep_one_source fk_constraints seed_db eq_refl)
    as [HK HB].
  split; [reflexivity | split].
  - exact (HK korbit_proposed_mappings).
  - exact (HB bitmart_mappings).
Defined.

(** The leaders of [wide_db] under the stable engine, whose order of equal
    counts is one of those SQL allows. *)
Lemma stable_order_by_desc_sorts : engine_sorts stable_order_by_desc.
Proof.
  intros l. unfold stable_order_by_desc. split.
  - apply sort_desc_perm.
  - apply (sort_desc_sorted (fun g : string * Z => snd g)).
Qed.

Lemma leaders_tie_any_engine_witness :
  engine_sorts stable_order_by_desc
  /\ get_coverage_leaders stable_order_by_desc wide_db 2 = [("b", 0); ("a", 0)].
Proof.
  split; [exact stable_order_by_desc_sorts|].
  exact (leaders_tie_any_engine stable_order_by_desc stable_order_by_desc_sorts).
Defined.

(** A new ticker mapping of a vendor raises the vendor's count in
    update_status.py by one, whatever its canonical field and whether or
    not it is active. *)
Theorem new_ticker_mapping_counts_one :
  forall (ok : Database -> NewMapping -> bool) (db db' : Database)
         (r : NewMapping) (v : Vendor),
    filter (fun v' => String.eqb (vendor_name v') (vendor_name v)) (vendors db)
    = [v] ->
    nm_vendor_id r = vendor_id v ->
    nm_entity_type r = "ticker" ->
    insert_field_mapping ok db r = Some db' ->
    count_ticker_mappings db' (vendor_name v)
    = count_ticker_mappings db (vendor_name v) + 1.
Proof.
  intros ok db db' r v Hone Hv Het Hins.
  apply insert_field_mapping_inv in Hins. subst db'.
  unfold count_ticker_mappings. cbn [vendors with_field_mappings].
  rewrite Hone. simpl. rewrite !app_nil_r.
  unfold ticker_mappings_of. cbn [field_mappings with_field_mappings].
  rewrite filter_app, length_app. simpl.
  rewrite Hv, Het, Z.eqb_refl. simpl. lia.
Qed.

(** Korbit's first mapping on the seeded catalog. *)
Lemma new_ticker_mapping_counts_one_witness :
  count_ticker_mappings
    (with_field_mappings seed_db
       [stored_row seed_db
          (mkNewMapping 2 2 "websocket" "ticker" "last" None (Some 2)
             (Some string_to_numeric) 0 true)])
    "korbit"
  = count_ticker_mappings seed_db "korbit" + 1.
Proof.
  exact (new_ticker_mapping_counts_one fk_constraints seed_db _
           (mkNewMapping 2 2 "websocket" "ticker" "last" None (Some 2)
              (Some string_to_numeric) 0 true)
           (mkVendor 2 "korbit") eq_refl eq_refl eq_refl eq_refl).
Defined.

(** * Further properties *)

(** ** The loops as instances of the shared turns *)

Lemma korbit_step_as_path_step :
  forall ok v c st p,
    korbit_step ok v c st p = path_step ok v (korbit_row v c) st p.
Proof. intros ok v c st [[path name] rule]. reflexivity. Qed.

Lemma zaif_step_as_path_step :
  forall ok v t l st p,
    zaif_step ok v t l st p = path_step ok v (zaif_row v t l) st p.
Proof. intros ok v t l st [[path name] rule]. reflexivity. Qed.

Lemma bitmart_step_as_keyed_step :
  forall ok v c st p,
    bitmart_step ok v c st p
    = keyed_step ok (bitmart_key v c) (bitmart_row v c) st p.
Proof.
  intros ok v c st [[[path name] rule] et].
  unfold bitmart_step, keyed_step, create_field_mapping, bitmart_key,
    bitmart_row, channel_mapping_exists; cbn [fst snd].
  destruct (found (get_canonical_field_id (bs_db st) name)) as [cf|];
    [|reflexivity].
  destruct (existsb (channel_key v cf path c) (field_mappings (bs_db st)));
    [reflexivity|].
  destruct (insert_field_mapping ok (bs_db st) _); reflexivity.
Qed.

Lemma rest_step_as_keyed_step :
  forall ok v e st p,
    RestTickerMapper.rest_step ok v e st p
    = keyed_step ok (rest_key v e) (rest_row v e) st p.
Proof.
  intros ok v e st [[[path name] rule] et].
  unfold RestTickerMapper.rest_step, keyed_step,
    RestTickerMapper.create_field_mapping, rest_key, rest_row,
    RestTickerMapper.endpoint_mapping_exists; cbn [fst snd].
  destruct (found (get_canonical_field_id (bs_db st) name)) as [cf|];
    [|reflexivity].
  destruct (existsb (RestTickerMapper.endpoint_key v cf path e)
              (field_mappings (bs_db st)));
    [reflexivity|].
  destruct (insert_field_mapping ok (bs_db st) _); reflexivity.
Qed.

Lemma fold_left_ext_step :
  forall {S P : Type} (f g : S -> P -> S) (l : list P) (s : S),
    (forall s p, f s p = g s p) -> fold_left f l s = fold_left g l s.
Proof.
  intros S P f g l; induction l as [|p l IH]; intros s H; simpl;
    [reflexivity|].
  rewrite H. now apply IH.
Qed.

Lemma korbit_row_of_path : forall v c, row_of_path v (korbit_row v c).
Proof. intros v c cf p. repeat split. Qed.

Lemma zaif_row_of_path : forall v t l, row_of_path v (zaif_row v t l).
Proof. intros v t l cf p. repeat split. Qed.

Lemma bitmart_row_has_key :
  forall v c, row_has_key (bitmart_key v c) (bitmart_row v c).
Proof.
  intros v c db cf p. unfold bitmart_key, bitmart_row, channel_key; simpl.
  now rewrite !Z.eqb_refl, String.eqb_refl.
Qed.

Lemma rest_row_has_key :
  forall v e, row_has_key (rest_key v e) (rest_row v e).
Proof.
  intros v e db cf p.
  unfold rest_key, rest_row, RestTickerMapper.endpoint_key; simpl.
  now rewrite !Z.eqb_refl, String.eqb_refl.
Qed.

(** ** Stores only grow *)

Lemma same_catalog_sym : forall a b, same_catalog a b -> same_catalog b a.
Proof.
  unfold same_catalog; intros a b (?&?&?&?&?&?). repeat split; congruence.
Qed.

Lemma extends_refl : forall db, extends db db.
Proof. intros db. split; [apply same_catalog_refl | apply incl_refl]. Qed.

Lemma extends_trans :
  forall a b c, extends a b -> extends b c -> extends a c.
Proof.
  intros a b c [Hab Iab] [Hbc Ibc]. split.
  - eapply same_catalog_trans; eauto.
  - eapply incl_tran; eauto.
Qed.

Lemma insert_extends :
  forall ok db r db', insert_field_mapping ok db r = Some db' -> extends db' db.
Proof.
  intros ok db r db' H. split; [eapply insert_same_catalog; eauto|].
  apply insert_field_mapping_inv in H. subst db'. simpl. apply incl_appl, incl_refl.
Qed.

Lemma count_outcome_app :
  forall o log line,
    count_outcome o (log ++ [line])
    = count_outcome o log + (if outcome_eqb (snd line) o then 1 else 0).
Proof.
  intros o log line. unfold count_outcome.
  rewrite filter_app, length_app, Nat2Z.inj_add. simpl.
  destruct (outcome_eqb (snd line) o); reflexivity.
Qed.

Lemma existsb_incl :
  forall {A : Type} (f : A -> bool) (l l' : list A),
    incl l l' -> existsb f l = true -> existsb f l' = true.
Proof.
  intros A f l l' Hincl H. apply existsb_exists in H as (x & Hx & Hf).
  apply existsb_exists. exists x. split; [now apply Hincl | exact Hf].
Qed.

Lemma insert_rejected_elsewhere :
  forall ok a b r,
    catalog_only ok -> same_catalog a b ->
    insert_field_mapping ok a r = None -> insert_field_mapping ok b r = None.
Proof.
  intros ok a b r Hok Hcat H. unfold insert_field_mapping in *.
  rewrite <- (Hok a b r Hcat). destruct (ok a r); [discriminate | reflexivity].
Qed.

Section PathStep.

Variable ok : Database -> NewMapping -> bool.
Variable vendor : Z.
Variable row : Z -> Proposal -> NewMapping.

Lemma path_step_grows :
  forall st p,
    exists added,
      field_mappings (ms_db (path_step ok vendor row st p))
      = (field_mappings (ms_db st) ++ added)%list
      /\ same_catalog (ms_db st) (ms_db (path_step ok vendor row st p))
      /\ Z.of_nat (List.length added)
         = ms_created (path_step ok vendor row st p) - ms_created st
      /\ count_outcome MappingCreated (ms_log (path_step ok vendor row st p))
         = count_outcome MappingCreated (ms_log st)
           + Z.of_nat (List.length added)
      /\ Forall (fun fm => exists db cf, fm = stored_row db (row cf p)) added.
Proof.
  intros st p. unfold path_step.
  destruct (found (get_canonical_field_id (ms_db st) (snd (fst p)))) as [cf|].
  - destruct (mapping_exists (ms_db st) vendor (fst (fst p)) cf).
    + exists []. cbn [ms_db ms_created ms_log]. rewrite app_nil_r, count_outcome_app.
      simpl. repeat split; solve [apply same_catalog_refl | lia | constructor].
    + destruct (insert_field_mapping ok (ms_db st) (row cf p)) as [db'|] eqn:Hins.
      * exists [stored_row (ms_db st) (row cf p)].
        cbn [ms_db ms_created ms_log]. rewrite count_outcome_app. simpl.
        pose proof (insert_field_mapping_inv ok _ _ _ Hins) as Hdb'.
        split; [subst db'; reflexivity|].
        split; [eapply insert_same_catalog; eauto|].
        split; [lia|]. split; [lia|].
        constructor; [eauto | constructor].
      * exists []. cbn [ms_db ms_created ms_log].
        rewrite app_nil_r, count_outcome_app. simpl.
        repeat split; solve [apply same_catalog_refl | lia | constructor].
  - exists []. cbn [ms_db ms_created ms_log]. rewrite app_nil_r, count_outcome_app.
    simpl. repeat split; solve [apply same_catalog_refl | lia | constructor].
Qed.

Lemma path_loop_grows :
  forall (batch : list Proposal) st,
    exists added,
      field_mappings (ms_db (fold_left (path_step ok vendor row) batch st))
      = (field_mappings (ms_db st) ++ added)%list
      /\ same_catalog (ms_db st)
           (ms_db (fold_left (path_step ok vendor row) batch st))
      /\ Z.of_nat (List.length added)
         = ms_created (fold_left (path_step ok vendor row) batch st)
           - ms_created st
      /\ count_outcome MappingCreated
           (ms_log (fold_left (path_step ok vendor row) batch st))
         = count_outcome MappingCreated (ms_log st)
           + Z.of_nat (List.length added)
      /\ Forall (fun fm => exists db cf p,
                             In p batch /\ fm = stored_row db (row cf p))
           added.
Proof.
  induction batch as [|p batch IH]; intros st.
  - exists []. simpl. rewrite app_nil_r.
    repeat split; solve [apply same_catalog_refl | lia | constructor].
  - cbn [fold_left].
    destruct (path_step_grows st p) as (a1 & Hf1 & Hc1 & Hn1 & Hl1 & Hr1).
    destruct (IH (path_step ok vendor row st p))
      as (a2 & Hf2 & Hc2 & Hn2 & Hl2 & Hr2).
    exists (a1 ++ a2)%list.
    split; [rewrite Hf2, Hf1, app_assoc; reflexivity|].
    split; [eapply same_catalog_trans; eauto|].
    rewrite length_app, Nat2Z.inj_add.
    split; [lia|]. split; [lia|].
    apply Forall_app. split.
    + eapply Forall_impl; [|exact Hr1]. intros fm (db & cf & ->).
      exists db, cf, p. split; [now left | reflexivity].
    + eapply Forall_impl; [|exact Hr2]. intros fm (db & cf & q & Hq & ->).
      exists db, cf, q. split; [now right | reflexivity].
Qed.

Lemma path_loop_extends :
  forall (batch : list Proposal) st,
    extends (ms_db (fold_left (path_step ok vendor row) batch st)) (ms_db st).
Proof.
  intros batch st.
  destruct (path_loop_grows batch st) as (added & Hf & Hc & _).
  split; [exact Hc|]. rewrite Hf. apply incl_appl, incl_refl.
Qed.

Hypothesis ok_catalog_only : catalog_only ok.
Hypothesis row_path : row_of_path vendor row.

(** A turn repeated on a store that already holds what the turn left
    stores nothing and counts nothing. *)
Lemma path_step_rerun :
  forall st p later st',
    extends later (ms_db (path_step ok vendor row st p)) ->
    ms_db st' = later ->
    ms_db (path_step ok vendor row st' p) = later
    /\ ms_created (path_step ok vendor row st' p) = ms_created st'.
Proof.
  intros st p later st' [Hcat Hincl] Hst'.
  destruct (path_step_grows st p) as (_ & _ & Hcat1 & _).
  assert (Hcat0 : same_catalog (ms_db st) later)
    by (eapply same_catalog_trans; eauto).
  unfold path_step in Hincl |- *. rewrite Hst'.
  rewrite <- (same_catalog_canonical_id (ms_db st) later _ Hcat0).
  destruct (found (get_canonical_field_id (ms_db st) (snd (fst p)))) as [cf|];
    [|split; reflexivity].
  destruct (mapping_exists later vendor (fst (fst p)) cf) eqn:Hlater;
    [split; reflexivity|].
  destruct (mapping_exists (ms_db st) vendor (fst (fst p)) cf) eqn:Hfirst.
  - cbn [ms_db] in Hincl. unfold mapping_exists in Hlater, Hfirst.
    rewrite (existsb_incl _ _ _ Hincl Hfirst) in Hlater. discriminate.
  - destruct (insert_field_mapping ok (ms_db st) (row cf p)) as [db'|] eqn:Hins.
    + cbn [ms_db] in Hincl.
      apply insert_field_mapping_inv in Hins. subst db'. simpl in Hincl.
      assert (Hin : In (stored_row (ms_db st) (row cf p)) (field_mappings later)).
      { apply Hincl, in_or_app. right. now left. }
      assert (Hkey : path_key vendor (fst (fst p)) cf
                       (stored_row (ms_db st) (row cf p)) = true).
      { destruct (row_path cf p) as (Hv & Hc & Hp).
        unfold path_key; simpl. rewrite Hv, Hc, Hp.
        now rewrite !Z.eqb_refl, String.eqb_refl. }
      unfold mapping_exists in Hlater.
      assert (Hex : existsb (path_key vendor (fst (fst p)) cf)
                      (field_mappings later) = true).
      { apply existsb_exists. eauto. }
      rewrite Hex in Hlater. discriminate.
    + rewrite (insert_rejected_elsewhere ok (ms_db st) later (row cf p)
                 ok_catalog_only Hcat0 Hins).
      split; reflexivity.
Qed.

Lemma path_loop_rerun :
  forall (batch : list Proposal) st later st',
    extends later (ms_db (fold_left (path_step ok vendor row) batch st)) ->
    ms_db st' = later ->
    ms_db (fold_left (path_step ok vendor row) batch st') = later
    /\ ms_created (fold_left (path_step ok vendor row) batch st')
       = ms_created st'.
Proof.
  induction batch as [|p batch IH]; intros st later st' Hext Hst'.
  - split; [exact Hst' | reflexivity].
  - cbn [fold_left] in *.
    assert (Hext1 : extends later (ms_db (path_step ok vendor row st p))).
    { eapply extends_trans; [exact Hext | apply path_loop_extends]. }
    destruct (path_step_rerun st p later st' Hext1 Hst') as [Hd Hc].
    destruct (IH (path_step ok vendor row st p) later
                 (path_step ok vendor row st' p) Hext Hd) as [Hd' Hc'].
    split; [exact Hd' | lia].
Qed.

End PathStep.

Section KeyedStep.

Variable ok : Database -> NewMapping -> bool.
Variable key : Z -> BitmartProposal -> FieldMapping -> bool.
Variable row : Z -> BitmartProposal -> NewMapping.

Lemma keyed_step_grows :
  forall st p,
    exists added,
      field_mappings (bs_db (keyed_step ok key row st p))
      = (field_mappings (bs_db st) ++ added)%list
      /\ same_catalog (bs_db st) (bs_db (keyed_step ok key row st p))
      /\ count_outcome MappingCreated (bs_log (keyed_step ok key row st p))
         = count_outcome MappingCreated (bs_log st)
           + Z.of_nat (List.length added)
      /\ bs_created (keyed_step ok key row st p)
         - (count_outcome MappingCreated (bs_log (keyed_step ok key row st p))
            + count_outcome MappingAlreadyExists
                (bs_log (keyed_step ok key row st p)))
         = bs_created st
           - (count_outcome MappingCreated (bs_log st)
              + count_outcome MappingAlreadyExists (bs_log st))
      /\ bs_failed (keyed_step ok key row st p)
         - (count_outcome CanonicalFieldNotFound
              (bs_log (keyed_step ok key row st p))
            + count_outcome InsertFailed (bs_log (keyed_step ok key row st p)))
         = bs_failed st
           - (count_outcome CanonicalFieldNotFound (bs_log st)
              + count_outcome InsertFailed (bs_log st))
      /\ Forall (fun fm => exists db cf, fm = stored_row db (row cf p)) added.
Proof.
  intros st p. unfold keyed_step.
  destruct (found (get_canonical_field_id (bs_db st) (snd (fst (fst p)))))
    as [cf|].
  - destruct (existsb (key cf p) (field_mappings (bs_db st))).
    + exists []. cbn [bs_db bs_created bs_failed bs_log].
      rewrite app_nil_r, !count_outcome_app. simpl.
      repeat split; solve [apply same_catalog_refl | lia | constructor].
    + destruct (insert_field_mapping ok (bs_db st) (row cf p)) as [db'|] eqn:Hins.
      * exists [stored_row (bs_db st) (row cf p)].
        cbn [bs_db bs_created bs_failed bs_log].
        rewrite !count_outcome_app. simpl.
        pose proof (insert_field_mapping_inv ok _ _ _ Hins) as Hdb'.
        split; [subst db'; reflexivity|].
        split; [eapply insert_same_catalog; eauto|].
        split; [lia|]. split; [lia|]. split; [lia|].
        constructor; [eauto | constructor].
      * exists []. cbn [bs_db bs_created bs_failed bs_log].
        rewrite app_nil_r, !count_outcome_app. simpl.
        repeat split; solve [apply same_catalog_refl | lia | constructor].
  - exists []. cbn [bs_db bs_created bs_failed bs_log].
    rewrite app_nil_r, !count_outcome_app. simpl.
    repeat split; solve [apply same_catalog_refl | lia | constructor].
Qed.

Lemma keyed_loop_grows :
  forall (batch : list BitmartProposal) st,
    let final := fold_left (keyed_step ok key row) batch st in
    exists added,
      field_mappings (bs_db final) = (field_mappings (bs_db st) ++ added)%list
      /\ same_catalog (bs_db st) (bs_db final)
      /\ count_outcome MappingCreated (bs_log final)
         = count_outcome MappingCreated (bs_log st)
           + Z.of_nat (List.length added)
      /\ bs_created final
         - (count_outcome MappingCreated (bs_log final)
            + count_outcome MappingAlreadyExists (bs_log final))
         = bs_created st
           - (count_outcome MappingCreated (bs_log st)
              + count_outcome MappingAlreadyExists (bs_log st))
      /\ bs_failed final
         - (count_outcome CanonicalFieldNotFound (bs_log final)
            + count_outcome InsertFailed (bs_log final))
         = bs_failed st
           - (count_outcome CanonicalFieldNotFound (bs_log st)
              + count_outcome InsertFailed (bs_log st))
      /\ Forall (fun fm => exists db cf p,
                             In p batch /\ fm = stored_row db (row cf p))
           added.
Proof.
  induction batch as [|p batch IH]; intros st; cbv zeta.
  - exists []. simpl. rewrite app_nil_r.
    repeat split; solve [apply same_catalog_refl | lia | constructor].
  - cbn [fold_left].
    destruct (keyed_step_grows st p)
      as (a1 & Hf1 & Hc1 & Hl1 & Hn1 & Hm1 & Hr1).
    destruct (IH (keyed_step ok key row st p))
      as (a2 & Hf2 & Hc2 & Hl2 & Hn2 & Hm2 & Hr2).
    exists (a1 ++ a2)%list.
    split; [rewrite Hf2, Hf1, app_assoc; reflexivity|].
    split; [eapply same_catalog_trans; eauto|].
    rewrite length_app, Nat2Z.inj_add.
    split; [lia|]. split; [lia|]. split; [lia|].
    apply Forall_app. split.
    + eapply Forall_impl; [|exact Hr1]. intros fm (db & cf & ->).
      exists db, cf, p. split; [now left | reflexivity].
    + eapply Forall_impl; [|exact Hr2]. intros fm (db & cf & q & Hq & ->).
      exists db, cf, q. split; [now right | reflexivity].
Qed.

Lemma keyed_loop_extends :
  forall (batch : list BitmartProposal) st,
    extends (bs_db (fold_left (keyed_step ok key row) batch st)) (bs_db st).
Proof.
  intros batch st.
  destruct (keyed_loop_grows batch st) as (added & Hf & Hc & _).
  split; [exact Hc|]. rewrite Hf. apply incl_appl, incl_refl.
Qed.

Hypothesis ok_catalog_only : catalog_only ok.
Hypothesis row_key : row_has_key key row.

(** A turn repeated on a store that already holds what the turn left
    stores nothing, logs no creation, and succeeds if it did before. *)
Lemma keyed_step_rerun :
  forall st p later st',
    extends later (bs_db (keyed_step ok key row st p)) ->
    bs_db st' = later ->
    bs_db (keyed_step ok key row st' p) = later
    /\ count_outcome MappingCreated (bs_log (keyed_step ok key row st' p))
       = count_outcome MappingCreated (bs_log st')
    /\ bs_created (keyed_step ok key row st p) - bs_created st
       <= bs_created (keyed_step ok key row st' p) - bs_created st'.
Proof.
  intros st p later st' [Hcat Hincl] Hst'.
  destruct (keyed_step_grows st p) as (_ & _ & Hcat1 & _).
  assert (Hcat0 : same_catalog (bs_db st) later)
    by (eapply same_catalog_trans; eauto).
  unfold keyed_step in Hincl |- *. rewrite Hst'.
  rewrite <- (same_catalog_canonical_id (bs_db st) later _ Hcat0).
  destruct (found (get_canonical_field_id (bs_db st) (snd (fst (fst p)))))
    as [cf|].
  2:{ cbn [bs_db bs_created bs_log]. rewrite count_outcome_app. simpl.
      repeat split; lia. }
  destruct (existsb (key cf p) (field_mappings later)) eqn:Hlater.
  { cbn [bs_db bs_created bs_log]. rewrite count_outcome_app. simpl.
    split; [reflexivity | split; [lia|]].
    destruct (existsb (key cf p) (field_mappings (bs_db st)));
      [|destruct (insert_field_mapping ok (bs_db st) (row cf p))];
      cbn [bs_created]; lia. }
  destruct (existsb (key cf p) (field_mappings (bs_db st))) eqn:Hfirst.
  - cbn [bs_db] in Hincl.
    rewrite (existsb_incl _ _ _ Hincl Hfirst) in Hlater. discriminate.
  - destruct (insert_field_mapping ok (bs_db st) (row cf p)) as [db'|] eqn:Hins.
    + cbn [bs_db] in Hincl.
      apply insert_field_mapping_inv in Hins. subst db'. simpl in Hincl.
      assert (Hex : existsb (key cf p) (field_mappings later) = true).
      { apply existsb_exists. exists (stored_row (bs_db st) (row cf p)).
        split; [apply Hincl, in_or_app; right; now left | apply row_key]. }
      rewrite Hex in Hlater. discriminate.
    + rewrite (insert_rejected_elsewhere ok (bs_db st) later (row cf p)
                 ok_catalog_only Hcat0 Hins).
      cbn [bs_db bs_created bs_log]. rewrite count_outcome_app. simpl.
      repeat split; lia.
Qed.

Lemma keyed_loop_rerun :
  forall (batch : list BitmartProposal) st later st',
    extends later (bs_db (fold_left (keyed_step ok key row) batch st)) ->
    bs_db st' = later ->
    bs_db (fold_left (keyed_step ok key row) batch st') = later
    /\ count_outcome MappingCreated
         (bs_log (fold_left (keyed_step ok key row) batch st'))
       = count_outcome MappingCreated (bs_log st')
    /\ bs_created (fold_left (keyed_step ok key row) batch st) - bs_created st
       <= bs_created (fold_left (keyed_step ok key row) batch st')
          - bs_created st'.
Proof.
  induction batch as [|p batch IH]; intros st later st' Hext Hst'.
  - simpl. repeat split; [exact Hst' | lia].
  - cbn [fold_left] in *.
    assert (Hext1 : extends later (bs_db (keyed_step ok key row st p))).
    { eapply extends_trans; [exact Hext | apply keyed_loop_extends]. }
    destruct (keyed_step_rerun st p later st' Hext1 Hst') as (Hd & Hl & Hc).
    destruct (IH (keyed_step ok key row st p) later
                 (keyed_step ok key row st' p) Hext Hd) as (Hd' & Hl' & Hc').
    split; [exact Hd' | split; lia].
Qed.

End KeyedStep.

(** ** What a pass adds to the store *)

Lemma same_catalog_vendor_id :
  forall a b name, same_catalog a b -> get_vendor_id a name = get_vendor_id b name.
Proof.
  intros a b name (Hv & _). unfold get_vendor_id. now rewrite Hv.
Qed.

Lemma same_catalog_websocket_channels :
  forall a b v, same_catalog a b ->
    get_websocket_channels a v = get_websocket_channels b v.
Proof.
  intros a b v (_&_&_&_&_&Hc). unfold get_websocket_channels. now rewrite Hc.
Qed.

Lemma same_catalog_channel_id :
  forall a b v name, same_catalog a b ->
    get_websocket_channel_id a v name = get_websocket_channel_id b v name.
Proof.
  intros a b v name (_&_&_&_&_&Hc). unfold get_websocket_channel_id.
  now rewrite Hc.
Qed.

Lemma same_catalog_rest_endpoints :
  forall a b v, same_catalog a b -> get_rest_endpoints a v = get_rest_endpoints b v.
Proof.
  intros a b v (_&_&_&_&He&_). unfold get_rest_endpoints. now rewrite He.
Qed.

Lemma same_catalog_endpoint_id :
  forall a b v path method, same_catalog a b ->
    RestTickerMapper.get_endpoint_id a v path method
    = RestTickerMapper.get_endpoint_id b v path method.
Proof.
  intros a b v path method (_&_&_&_&He&_).
  unfold RestTickerMapper.get_endpoint_id. now rewrite He.
Qed.

Lemma korbit_loop_as_path_loop :
  forall ok v c (batch : list Proposal) st,
    fold_left (korbit_step ok v c) batch st
    = fold_left (path_step ok v (korbit_row v c)) batch st.
Proof.
  intros. apply fold_left_ext_step. intros. apply korbit_step_as_path_step.
Qed.

Lemma zaif_loop_as_path_loop :
  forall ok v t l (batch : list Proposal) st,
    fold_left (zaif_step ok v t l) batch st
    = fold_left (path_step ok v (zaif_row v t l)) batch st.
Proof.
  intros. apply fold_left_ext_step. intros. apply zaif_step_as_path_step.
Qed.

Lemma bitmart_loop_as_keyed_loop :
  forall ok v c (batch : list BitmartProposal) st,
    bitmart_loop ok v c batch st
    = fold_left (keyed_step ok (bitmart_key v c) (bitmart_row v c)) batch st.
Proof.
  intros. unfold bitmart_loop. apply fold_left_ext_step. intros.
  apply bitmart_step_as_keyed_step.
Qed.

Lemma rest_loop_as_keyed_loop :
  forall ok v e (batch : list BitmartProposal) st,
    fold_left (RestTickerMapper.rest_step ok v e) batch st
    = fold_left (keyed_step ok (rest_key v e) (rest_row v e)) batch st.
Proof.
  intros. apply fold_left_ext_step. intros. apply rest_step_as_keyed_step.
Qed.

(** The created count of the Korbit and Zaif passes is the growth of the
    store.  A real pass keeps every stored mapping in place and appends one
    row per record it logs as created: [total_field_mappings] of
    update_status.py rises by exactly [created_count].  The appended rows
    are ticker mappings of the pass's vendor and source type, WebSocket
    rows without endpoint for Korbit, REST rows without channel for Zaif. *)
Theorem created_count_is_store_growth :
  forall (ok : Database -> NewMapping -> bool) (batch : list Proposal)
         (db : Database),
    (forall st,
        korbit_create_mappings_over ok batch false db = Committed st ->
        exists added,
          field_mappings (ms_db st) = (field_mappings db ++ added)%list
          /\ get_total_field_mappings (ms_db st)
             = get_total_field_mappings db + ms_created st
          /\ count_outcome MappingCreated (ms_log st) = ms_created st
          /\ Forall (fun fm =>
                       source_type fm = "websocket" /\ entity_type fm = "ticker"
                       /\ fm_endpoint_id fm = None
                       /\ get_vendor_id db "korbit" = Some (fm_vendor_id fm))
               added)
    /\ (forall st,
          zaif_create_mappings_over ok batch false db = Committed st ->
          exists added,
            field_mappings (ms_db st) = (field_mappings db ++ added)%list
            /\ get_total_field_mappings (ms_db st)
               = get_total_field_mappings db + ms_created st
            /\ count_outcome MappingCreated (ms_log st) = ms_created st
            /\ Forall (fun fm =>
                         source_type fm = "rest" /\ entity_type fm = "ticker"
                         /\ fm_channel_id fm = None
                         /\ get_vendor_id db "zaif" = Some (fm_vendor_id fm))
                 added).
Proof.
  intros ok batch db. split; intros st Hrun.
  - unfold korbit_create_mappings_over in Hrun.
    destruct (found (get_vendor_id db "korbit")) as [v|] eqn:Hv; [|discriminate].
    destruct (get_websocket_channels db v) as [|ch chs]; [discriminate|].
    destruct (found (first_ticker_channel (ch :: chs))) as [c|]; [|discriminate].
    injection Hrun as <-. rewrite korbit_loop_as_path_loop.
    destruct (path_loop_grows ok v (korbit_row v c) batch (mkMapperState db 0 []))
      as (added & Hf & _ & Hn & Hl & Hr).
    cbn [ms_db ms_created ms_log] in Hf, Hn, Hl.
    exists added. split; [exact Hf|].
    unfold get_total_field_mappings. rewrite Hf, length_app, Nat2Z.inj_add.
    split; [lia|]. split; [unfold count_outcome in Hl |- *; simpl in Hl; lia|].
    eapply Forall_impl; [|exact Hr]. intros fm (dbx & cf & p & _ & ->).
    simpl. apply found_some in Hv. auto.
  - unfold zaif_create_mappings_over in Hrun.
    destruct (found (get_vendor_id db "zaif")) as [v|] eqn:Hv; [|discriminate].
    destruct (get_rest_endpoints db v) as [|ep eps]; [discriminate|].
    destruct (select_zaif_endpoints (ep :: eps)) as [t l].
    destruct (found t) as [ticker|]; [|discriminate].
    injection Hrun as <-. rewrite zaif_loop_as_path_loop.
    destruct (path_loop_grows ok v (zaif_row v ticker l) batch
                (mkMapperState db 0 []))
      as (added & Hf & _ & Hn & Hl & Hr).
    cbn [ms_db ms_created ms_log] in Hf, Hn, Hl.
    exists added. split; [exact Hf|].
    unfold get_total_field_mappings. rewrite Hf, length_app, Nat2Z.inj_add.
    split; [lia|]. split; [unfold count_outcome in Hl |- *; simpl in Hl; lia|].
    eapply Forall_impl; [|exact Hr]. intros fm (dbx & cf & p & _ & ->).
    simpl. apply found_some in Hv. auto.
Qed.

(** The Korbit pass on the seeded catalog: nine rows more. *)
Lemma created_count_is_store_growth_witness :
  korbit_create_mappings fk_constraints false seed_db = Committed seed_korbit_state
  /\ ms_created seed_korbit_state = 9
  /\ exists added,
       field_mappings (ms_db seed_korbit_state)
       = (field_mappings seed_db ++ added)%list
       /\ get_total_field_mappings (ms_db seed_korbit_state)
          = get_total_field_mappings seed_db + ms_created seed_korbit_state
       /\ count_outcome MappingCreated (ms_log seed_korbit_state)
          = ms_created seed_korbit_state
       /\ Forall (fun fm =>
                    source_type fm = "websocket" /\ entity_type fm = "ticker"
                    /\ fm_endpoint_id fm = None
                    /\ get_vendor_id seed_db "korbit" = Some (fm_vendor_id fm))
            added.
Proof.
  split; [reflexivity | split; [reflexivity|]].
  exact (proj1 (created_count_is_store_growth fk_constraints
                  korbit_proposed_mappings seed_db)
               seed_korbit_state eq_refl).
Defined.

(** The created count of the BitMart and REST passes counts every record
    that ends up stored, new or not.  A pass keeps every stored mapping in
    place and appends one row per "created" line it logs; the count it
    returns is the number of "created" plus "already exists" lines, the
    failed count the number of "canonical field not found" plus "insert
    failed" lines.  Every appended row is active, with priority 10 on the
    pass's WebSocket channel (BitMart) or priority 0 on its REST endpoint
    (the REST demo). *)
Theorem created_count_includes_existing :
  forall (ok : Database -> NewMapping -> bool) (batch : list BitmartProposal)
         (db : Database),
    (let st := map_bitmart_ticker_fields_over ok batch db in
     exists added,
       field_mappings (bs_db st) = (field_mappings db ++ added)%list
       /\ get_total_field_mappings (bs_db st)
          = get_total_field_mappings db
            + count_outcome MappingCreated (bs_log st)
       /\ bs_created st
          = count_outcome MappingCreated (bs_log st)
            + count_outcome MappingAlreadyExists (bs_log st)
       /\ bs_failed st
          = count_outcome CanonicalFieldNotFound (bs_log st)
            + count_outcome InsertFailed (bs_log st)
       /\ Forall (fun fm =>
                    priority fm = 10 /\ is_active fm = true
                    /\ source_type fm = "websocket" /\ fm_endpoint_id fm = None
                    /\ get_vendor_id db "bitmart" = Some (fm_vendor_id fm))
            added)
    /\ (forall vendor_name endpoint_path,
          let st := RestTickerMapper.map_rest_ticker_over ok vendor_name
                      endpoint_path batch db in
          exists added,
            field_mappings (bs_db st) = (field_mappings db ++ added)%list
            /\ get_total_field_mappings (bs_db st)
               = get_total_field_mappings db
                 + count_outcome MappingCreated (bs_log st)
            /\ bs_created st
               = count_outcome MappingCreated (bs_log st)
                 + count_outcome MappingAlreadyExists (bs_log st)
            /\ bs_failed st
               = count_outcome CanonicalFieldNotFound (bs_log st)
                 + count_outcome InsertFailed (bs_log st)
            /\ Forall (fun fm =>
                         priority fm = 0 /\ is_active fm = true
                         /\ source_type fm = "rest" /\ fm_channel_id fm = None
                         /\ get_vendor_id db vendor_name
                            = Some (fm_vendor_id fm))
                 added).
Proof.
  intros ok batch db.
  assert (Hnone : exists added : list FieldMapping,
             field_mappings db = (field_mappings db ++ added)%list
             /\ get_total_field_mappings db
                = get_total_field_mappings db + count_outcome MappingCreated []
             /\ 0 = count_outcome MappingCreated []
                    + count_outcome MappingAlreadyExists []
             /\ 0 = count_outcome CanonicalFieldNotFound []
                    + count_outcome InsertFailed []).
  { exists []. rewrite app_nil_r. unfold count_outcome; simpl.
    repeat split; lia. }
  split.
  - cbv zeta. unfold map_bitmart_ticker_fields_over.
    destruct (found (get_vendor_id db "bitmart")) as [v|] eqn:Hv.
    2:{ destruct Hnone as (added & H1 & H2 & H3 & H4). exists [].
        rewrite app_nil_r. cbn [bs_db bs_created bs_failed bs_log].
        repeat split; solve [assumption | constructor]. }
    destruct (found (get_websocket_channel_id db v "spot/ticker")) as [c|].
    2:{ destruct Hnone as (added & H1 & H2 & H3 & H4). exists [].
        rewrite app_nil_r. cbn [bs_db bs_created bs_failed bs_log].
        repeat split; solve [assumption | constructor]. }
    rewrite bitmart_loop_as_keyed_loop.
    destruct (keyed_loop_grows ok (bitmart_key v c) (bitmart_row v c) batch
                (mkBitmartState db 0 0 []))
      as (added & Hf & _ & Hl & Hn & Hm & Hr).
    cbn [bs_db bs_created bs_failed bs_log] in Hf, Hl, Hn, Hm.
    change (count_outcome MappingCreated []) with 0 in *.
    change (count_outcome MappingAlreadyExists []) with 0 in *.
    change (count_outcome CanonicalFieldNotFound []) with 0 in *.
    change (count_outcome InsertFailed []) with 0 in *.
    exists added. split; [exact Hf|].
    unfold get_total_field_mappings. rewrite Hf, length_app, Nat2Z.inj_add.
    split; [lia|]. split; [lia|]. split; [lia|].
    eapply Forall_impl; [|exact Hr]. intros fm (dbx & cf & p & _ & ->).
    simpl. apply found_some in Hv. auto 6.
  - intros vendor_name endpoint_path. cbv zeta.
    unfold RestTickerMapper.map_rest_ticker_over.
    destruct (found (get_vendor_id db vendor_name)) as [v|] eqn:Hv.
    2:{ destruct Hnone as (added & H1 & H2 & H3 & H4). exists [].
        rewrite app_nil_r. cbn [bs_db bs_created bs_failed bs_log].
        repeat split; solve [assumption | constructor]. }
    destruct (found (RestTickerMapper.get_endpoint_id db v endpoint_path "GET"))
      as [e|].
    2:{ destruct Hnone as (added & H1 & H2 & H3 & H4). exists [].
        rewrite app_nil_r. cbn [bs_db bs_created bs_failed bs_log].
        repeat split; solve [assumption | constructor]. }
    rewrite rest_loop_as_keyed_loop.
    destruct (keyed_loop_grows ok (rest_key v e) (rest_row v e) batch
                (mkBitmartState db 0 0 []))
      as (added & Hf & _ & Hl & Hn & Hm & Hr).
    cbn [bs_db bs_created bs_failed bs_log] in Hf, Hl, Hn, Hm.
    change (count_outcome MappingCreated []) with 0 in *.
    change (count_outcome MappingAlreadyExists []) with 0 in *.
    change (count_outcome CanonicalFieldNotFound []) with 0 in *.
    change (count_outcome InsertFailed []) with 0 in *.
    exists added. split; [exact Hf|].
    unfold get_total_field_mappings. rewrite Hf, length_app, Nat2Z.inj_add.
    split; [lia|]. split; [lia|]. split; [lia|].
    eapply Forall_impl; [|exact Hr]. intros fm (dbx & cf & p & _ & ->).
    simpl. apply found_some in Hv. auto 6.
Qed.

(** ** Running a pass again *)

Lemma fk_constraints_catalog_only : catalog_only fk_constraints.
Proof.
  intros a b r (Hv & _ & Hcf & _ & He & Hc). unfold fk_constraints.
  now rewrite Hv, Hcf, He, Hc.
Qed.

(** A second real run of the Korbit or of the Zaif pass stores nothing.
    When the store's constraints look at the catalog and the new row only,
    a real pass run on the store a real pass has left reaches the proposals
    again, leaves the store as it is and reports zero created mappings. *)
Theorem second_run_creates_nothing :
  forall (ok : Database -> NewMapping -> bool),
    catalog_only ok ->
    forall (batch : list Proposal) (db : Database) (st : MapperState),
      (korbit_create_mappings_over ok batch false db = Committed st ->
       exists st2,
         korbit_create_mappings_over ok batch false (ms_db st) = Committed st2
         /\ ms_db st2 = ms_db st /\ ms_created st2 = 0)
      /\ (zaif_create_mappings_over ok batch false db = Committed st ->
          exists st2,
            zaif_create_mappings_over ok batch false (ms_db st) = Committed st2
            /\ ms_db st2 = ms_db st /\ ms_created st2 = 0).
Proof.
  intros ok Hok batch db st. split; intros Hrun.
  - unfold korbit_create_mappings_over in Hrun |- *.
    destruct (found (get_vendor_id db "korbit")) as [v|] eqn:Hv; [|discriminate].
    destruct (get_websocket_channels db v) as [|ch chs] eqn:Hchs; [discriminate|].
    destruct (found (first_ticker_channel (ch :: chs))) as [c|] eqn:Hc;
      [|discriminate].
    injection Hrun as <-. rewrite korbit_loop_as_path_loop.
    set (final := fold_left (path_step ok v (korbit_row v c)) batch
                    (mkMapperState db 0 [])).
    destruct (path_loop_extends ok v (korbit_row v c) batch
                (mkMapperState db 0 [])) as [Hcat _].
    fold final in Hcat. cbn [ms_db] in Hcat.
    rewrite <- (same_catalog_vendor_id db (ms_db final) _ Hcat), Hv.
    rewrite <- (same_catalog_websocket_channels db (ms_db final) _ Hcat), Hchs, Hc.
    eexists. split; [reflexivity|]. rewrite korbit_loop_as_path_loop.
    apply (path_loop_rerun ok v (korbit_row v c) Hok (korbit_row_of_path v c)
             batch (mkMapperState db 0 []) (ms_db final)
             (mkMapperState (ms_db final) 0 [])
             (extends_refl _) eq_refl).
  - unfold zaif_create_mappings_over in Hrun |- *.
    destruct (found (get_vendor_id db "zaif")) as [v|] eqn:Hv; [|discriminate].
    destruct (get_rest_endpoints db v) as [|ep eps] eqn:Heps; [discriminate|].
    destruct (select_zaif_endpoints (ep :: eps)) as [t l] eqn:Hsel.
    destruct (found t) as [ticker|] eqn:Ht; [|discriminate].
    injection Hrun as <-. rewrite zaif_loop_as_path_loop.
    set (final := fold_left (path_step ok v (zaif_row v ticker l)) batch
                    (mkMapperState db 0 [])).
    destruct (path_loop_extends ok v (zaif_row v ticker l) batch
                (mkMapperState db 0 [])) as [Hcat _].
    fold final in Hcat. cbn [ms_db] in Hcat.
    rewrite <- (same_catalog_vendor_id db (ms_db final) _ Hcat), Hv.
    rewrite <- (same_catalog_rest_endpoints db (ms_db final) _ Hcat), Heps, Hsel, Ht.
    eexists. split; [reflexivity|]. rewrite zaif_loop_as_path_loop.
    apply (path_loop_rerun ok v (zaif_row v ticker l) Hok
             (zaif_row_of_path v ticker l)
             batch (mkMapperState db 0 []) (ms_db final)
             (mkMapperState (ms_db final) 0 [])
             (extends_refl _) eq_refl).
Qed.

(** The Korbit pass run again on the store it left on the seeded catalog. *)
Lemma second_run_creates_nothing_witness :
  catalog_only fk_constraints
  /\ korbit_create_mappings fk_constraints false seed_db
     = Committed seed_korbit_state
  /\ exists st2,
       korbit_create_mappings fk_constraints false (ms_db seed_korbit_state)
       = Committed st2
       /\ ms_db st2 = ms_db seed_korbit_state /\ ms_created st2 = 0.
Proof.
  split; [exact fk_constraints_catalog_only | split; [reflexivity|]].
  exact (proj1 (second_run_creates_nothing fk_constraints
                  fk_constraints_catalog_only korbit_proposed_mappings seed_db
                  seed_korbit_state)
               eq_refl).
Defined.

(** A second run of the BitMart pass, or of a REST pass, stores nothing
    but reports its records as created again.  When the store's constraints
    look at the catalog and the new row only, the pass run on the store it
    has left changes nothing and logs no creation, yet returns a created
    count at least as large as the first run's. *)
Theorem second_run_counts_existing :
  forall (ok : Database -> NewMapping -> bool),
    catalog_only ok ->
    forall (batch : list BitmartProposal) (db : Database),
      (let first := map_bitmart_ticker_fields_over ok batch db in
       let second := map_bitmart_ticker_fields_over ok batch (bs_db first) in
       bs_db second = bs_db first
       /\ count_outcome MappingCreated (bs_log second) = 0
       /\ bs_created first <= bs_created second)
      /\ (forall vendor_name endpoint_path,
            let first := RestTickerMapper.map_rest_ticker_over ok vendor_name
                           endpoint_path batch db in
            let second := RestTickerMapper.map_rest_ticker_over ok vendor_name
                            endpoint_path batch (bs_db first) in
            bs_db second = bs_db first
            /\ count_outcome MappingCreated (bs_log second) = 0
            /\ bs_created first <= bs_created second).
Proof.
  intros ok Hok batch db. split.
  - cbv zeta. unfold map_bitmart_ticker_fields_over.
    destruct (found (get_vendor_id db "bitmart")) as [v|] eqn:Hv.
    2:{ cbn [bs_db]. rewrite Hv. cbn. repeat split; lia. }
    destruct (found (get_websocket_channel_id db v "spot/ticker")) as [c|] eqn:Hc.
    2:{ cbn [bs_db]. rewrite Hv, Hc. cbn. repeat split; lia. }
    rewrite !bitmart_loop_as_keyed_loop.
    set (final := fold_left (keyed_step ok (bitmart_key v c) (bitmart_row v c))
                    batch (mkBitmartState db 0 0 [])).
    destruct (keyed_loop_extends ok (bitmart_key v c) (bitmart_row v c) batch
                (mkBitmartState db 0 0 [])) as [Hcat _].
    fold final in Hcat. cbn [bs_db] in Hcat.
    rewrite <- (same_catalog_vendor_id db (bs_db final) _ Hcat), Hv.
    rewrite <- (same_catalog_channel_id db (bs_db final) _ _ Hcat), Hc.
    rewrite bitmart_loop_as_keyed_loop.
    destruct (keyed_loop_rerun ok (bitmart_key v c) (bitmart_row v c) Hok
                (bitmart_row_has_key v c) batch (mkBitmartState db 0 0 [])
                (bs_db final) (mkBitmartState (bs_db final) 0 0 [])
                (extends_refl _) eq_refl) as (Hd & Hl & Hn).
    fold final in Hn. cbn [bs_created bs_log] in Hl, Hn.
    split; [exact Hd | split; [exact Hl | lia]].
  - intros vendor_name endpoint_path. cbv zeta.
    unfold RestTickerMapper.map_rest_ticker_over.
    destruct (found (get_vendor_id db vendor_name)) as [v|] eqn:Hv.
    2:{ cbn [bs_db]. rewrite Hv. cbn. repeat split; lia. }
    destruct (found (RestTickerMapper.get_endpoint_id db v endpoint_path "GET"))
      as [e|] eqn:He.
    2:{ cbn [bs_db]. rewrite Hv, He. cbn. repeat split; lia. }
    rewrite !rest_loop_as_keyed_loop.
    set (final := fold_left (keyed_step ok (rest_key v e) (rest_row v e))
                    batch (mkBitmartState db 0 0 [])).
    destruct (keyed_loop_extends ok (rest_key v e) (rest_row v e) batch
                (mkBitmartState db 0 0 [])) as [Hcat _].
    fold final in Hcat. cbn [bs_db] in Hcat.
    rewrite <- (same_catalog_vendor_id db (bs_db final) _ Hcat), Hv.
    rewrite <- (same_catalog_endpoint_id db (bs_db final) _ _ _ Hcat), He.
    rewrite rest_loop_as_keyed_loop.
    destruct (keyed_loop_rerun ok (rest_key v e) (rest_row v e) Hok
                (rest_row_has_key v e) batch (mkBitmartState db 0 0 [])
                (bs_db final) (mkBitmartState (bs_db final) 0 0 [])
                (extends_refl _) eq_refl) as (Hd & Hl & Hn).
    fold final in Hn. cbn [bs_created bs_log] in Hl, Hn.
    split; [exact Hd | split; [exact Hl | lia]].
Qed.

(** BitMart on the seeded catalog: thirteen created, then thirteen again. *)
Lemma second_run_counts_existing_witness :
  catalog_only fk_constraints
  /\ bs_created (map_bitmart_ticker_fields fk_constraints seed_db) = 13
  /\ bs_db (map_bitmart_ticker_fields fk_constraints
              (bs_db (map_bitmart_ticker_fields fk_constraints seed_db)))
     = bs_db (map_bitmart_ticker_fields fk_constraints seed_db)
  /\ bs_created (map_bitmart_ticker_fields fk_constraints seed_db)
     <= bs_created (map_bitmart_ticker_fields fk_constraints
                      (bs_db (map_bitmart_ticker_fields fk_constraints seed_db))).
Proof.
  pose proof (proj1 (second_run_counts_existing fk_constraints
                       fk_constraints_catalog_only bitmart_mappings seed_db))
    as (Hd & _ & Hc).
  split; [exact fk_constraints_catalog_only | split; [reflexivity|]].
  split; [exact Hd | exact Hc].
Defined.


(** ** The source of a REST mapping *)

Lemma get_endpoint_id_owned :
  forall db v path method e,
    RestTickerMapper.get_endpoint_id db v path method = Some e ->
    existsb (fun ep => (endpoint_id ep =? e) && (ep_vendor_id ep =? v))
      (rest_endpoints db) = true.
Proof.
  intros db v path method e H. unfold RestTickerMapper.get_endpoint_id in H.
  destruct (find _ (rest_endpoints db)) as [ep|] eqn:Hfind; [|discriminate].
  injection H as <-. apply find_some in Hfind as [Hin Hsel].
  apply andb_true_iff in Hsel as [Hsel _].
  apply andb_true_iff in Hsel as [Hv _].
  apply existsb_exists. exists ep. split; [exact Hin|].
  now rewrite Z.eqb_refl, Hv.
Qed.

Lemma references_one_source_same_catalog :
  forall a b fm,
    same_catalog a b -> references_one_source a fm = references_one_source b fm.
Proof.
  intros a b fm (_&_&_&_&He&Hc). unfold references_one_source.
  now rewrite He, Hc.
Qed.

Lemma rest_pass_same_catalog :
  forall ok vendor_name endpoint_path (batch : list BitmartProposal) db,
    same_catalog db
      (bs_db (RestTickerMapper.map_rest_ticker_over ok vendor_name endpoint_path
                batch db)).
Proof.
  intros ok vendor_name endpoint_path batch db.
  unfold RestTickerMapper.map_rest_ticker_over.
  destruct (found (get_vendor_id db vendor_name)) as [v|];
    [|apply same_catalog_refl].
  destruct (found (RestTickerMapper.get_endpoint_id db v endpoint_path "GET"))
    as [e|]; [|apply same_catalog_refl].
  rewrite rest_loop_as_keyed_loop.
  apply (keyed_loop_extends ok (rest_key v e) (rest_row v e) batch
           (mkBitmartState db 0 0 [])).
Qed.

Lemma rest_pass_one_source :
  forall ok db0 vendor_name endpoint_path (batch : list BitmartProposal) db,
    same_catalog db0 db ->
    forallb (references_one_source db0) (field_mappings db) = true ->
    forallb (references_one_source db0)
      (field_mappings
         (bs_db (RestTickerMapper.map_rest_ticker_over ok vendor_name
                   endpoint_path batch db)))
    = true.
Proof.
  intros ok db0 vendor_name endpoint_path batch db Hcat Hall.
  unfold RestTickerMapper.map_rest_ticker_over.
  destruct (found (get_vendor_id db vendor_name)) as [v|]; [|exact Hall].
  destruct (found (RestTickerMapper.get_endpoint_id db v endpoint_path "GET"))
    as [e|] eqn:He; [|exact Hall].
  rewrite rest_loop_as_keyed_loop.
  destruct (keyed_loop_grows ok (rest_key v e) (rest_row v e) batch
              (mkBitmartState db 0 0 [])) as (added & Hf & _ & _ & _ & _ & Hr).
  cbn [bs_db] in Hf. rewrite Hf, forallb_app, Hall. cbn [andb].
  apply forallb_forall. intros fm Hin. rewrite Forall_forall in Hr.
  destruct (Hr fm Hin) as (dbx & cf & p & _ & ->).
  apply found_some in He. apply get_endpoint_id_owned in He.
  destruct Hcat as (_&_&_&_&Heps&_).
  unfold references_one_source, stored_row, rest_row.
  cbn [fm_endpoint_id fm_channel_id source_type fm_vendor_id nm_endpoint_id
       nm_channel_id nm_source_type nm_vendor_id].
  rewrite Heps, He. reflexivity.
Qed.

(** Every mapping the REST passes store references exactly one source: an
    endpoint of the pass's own vendor and no channel.  A store whose
    mappings all reference one source of their vendor is left in that
    condition by each pass, whatever the vendor, endpoint path and batch,
    and by the four passes of [map_all_rest_tickers] run in turn. *)
Theorem rest_passes_keep_one_source :
  forall (ok : Database -> NewMapping -> bool) (db : Database),
    forallb (references_one_source db) (field_mappings db) = true ->
    (forall vendor_name endpoint_path batch,
        forallb (references_one_source db)
          (field_mappings
             (bs_db (RestTickerMapper.map_rest_ticker_over ok vendor_name
                       endpoint_path batch db)))
        = true)
    /\ forallb (references_one_source db)
         (field_mappings (fst (RestTickerMapper.map_all_rest_tickers ok db)))
       = true.
Proof.
  intros ok db Hall. split.
  - intros vendor_name endpoint_path batch.
    apply rest_pass_one_source; [apply same_catalog_refl | exact Hall].
  - unfold RestTickerMapper.map_all_rest_tickers. cbv zeta. cbn [fst].
    unfold RestTickerMapper.map_bitfinex_rest_ticker,
      RestTickerMapper.map_kraken_rest_ticker,
      RestTickerMapper.map_binance_rest_ticker,
      RestTickerMapper.map_coinbase_rest_ticker.
    set (d1 := bs_db (RestTickerMapper.map_rest_ticker_over ok "coinbase" _ _ db)).
    set (d2 := bs_db (RestTickerMapper.map_rest_ticker_over ok "binance" _ _ d1)).
    set (d3 := bs_db (RestTickerMapper.map_rest_ticker_over ok "kraken" _ _ d2)).
    assert (H1 : same_catalog db d1) by apply rest_pass_same_catalog.
    assert (H2 : same_catalog db d2).
    { eapply same_catalog_trans; [exact H1 | apply rest_pass_same_catalog]. }
    assert (H3 : same_catalog db d3).
    { eapply same_catalog_trans; [exact H2 | apply rest_pass_same_catalog]. }
    apply rest_pass_one_source; [exact H3|].
    apply rest_pass_one_source; [exact H2|].
    apply rest_pass_one_source; [exact H1|].
    apply rest_pass_one_source; [apply same_catalog_refl | exact Hall].
Qed.

(** The four passes on the catalog of the REST demo. *)
Lemma rest_passes_keep_one_source_witness :
  forallb (references_one_source rest_demo_db) (field_mappings rest_demo_db)
  = true
  /\ List.length
       (field_mappings
          (fst (RestTickerMapper.map_all_rest_tickers fk_constraints
                  rest_demo_db)))
     = 33%nat
  /\ forallb (references_one_source rest_demo_db)
       (field_mappings
          (fst (RestTickerMapper.map_all_rest_tickers fk_constraints
                  rest_demo_db)))
     = true.
Proof.
  split; [reflexivity | split; [vm_compute; reflexivity|]].
  exact (proj2 (rest_passes_keep_one_source fk_constraints rest_demo_db eq_refl)).
Defined.

Lemma select_zaif_endpoints_in :
  forall eps e,
    fst (select_zaif_endpoints eps) = Some e
    \/ snd (select_zaif_endpoints eps) = Some e ->
    exists ep, In ep eps /\ endpoint_id ep = e.
Proof.
  intros eps e. unfold select_zaif_endpoints.
  match goal with |- context [fold_left ?f _ _] => set (F := f) end.
  assert (G : forall l acc,
             fst (fold_left F l acc) = Some e \/ snd (fold_left F l acc) = Some e ->
             (fst acc = Some e \/ snd acc = Some e)
             \/ exists ep, In ep l /\ endpoint_id ep = e).
  { induction l as [|ep l IH]; intros acc H; cbn [fold_left] in H;
      [left; exact H|].
    apply IH in H. destruct H as [H | (ep' & Hin & He)].
    - unfold F in H.
      destruct (contains "/api/1/ticker/{currency_pair}" (ep_path ep)).
      + cbn [fst snd] in H. destruct H as [H | H].
        * right. exists ep. split; [now left | congruence].
        * left. now right.
      + destruct (contains "/api/1/last_price/{currency_pair}" (ep_path ep)).
        * cbn [fst snd] in H. destruct H as [H | H].
          -- left. now left.
          -- right. exists ep. split; [now left | congruence].
        * left. exact H.
    - right. exists ep'. split; [now right | exact He]. }
  intros H. apply G in H. cbn [fst snd] in H.
  destruct H as [[H | H] | H]; [discriminate | discriminate | exact H].
Qed.

Lemma zaif_endpoint_owned :
  forall db v e,
    fst (select_zaif_endpoints (get_rest_endpoints db v)) = Some e
    \/ snd (select_zaif_endpoints (get_rest_endpoints db v)) = Some e ->
    existsb (fun ep => (endpoint_id ep =? e) && (ep_vendor_id ep =? v))
      (rest_endpoints db) = true.
Proof.
  intros db v e H. apply select_zaif_endpoints_in in H as (ep & Hin & <-).
  unfold get_rest_endpoints in Hin. apply filter_In in Hin as [Hin Hsel].
  apply andb_true_iff in Hsel as [Hsel _].
  apply andb_true_iff in Hsel as [Hv _].
  apply existsb_exists. exists ep. split; [exact Hin|].
  now rewrite Z.eqb_refl, Hv.
Qed.

(** The Zaif pass leaves a mapping without source only for the vendor field
    last_price, and only when the scan found no last_price endpoint.  On a
    store whose mappings all reference one source of their vendor, every
    mapping a real pass leaves either references one endpoint of the vendor
    zaif, or is the last_price record stored with neither endpoint nor
    channel because no last_price endpoint was selected; when one was
    selected, every mapping references one source. *)
Theorem zaif_pass_source_of_each_row :
  forall (ok : Database -> NewMapping -> bool) (batch : list Proposal)
         (db : Database) (st : MapperState),
    forallb (references_one_source db) (field_mappings db) = true ->
    zaif_create_mappings_over ok batch false db = Committed st ->
    exists v ticker l,
      get_vendor_id db "zaif" = Some v
      /\ select_zaif_endpoints (get_rest_endpoints db v) = (Some ticker, l)
      /\ Forall (fun fm =>
                   references_one_source db fm = true
                   \/ (l = None /\ vendor_field_path fm = "last_price"
                       /\ fm_endpoint_id fm = None /\ fm_channel_id fm = None))
           (field_mappings (ms_db st))
      /\ (forall e, l = Some e ->
            forallb (references_one_source db) (field_mappings (ms_db st))
            = true).
Proof.
  intros ok batch db st Hall Hrun. unfold zaif_create_mappings_over in Hrun.
  destruct (found (get_vendor_id db "zaif")) as [v|] eqn:Hv; [|discriminate].
  destruct (get_rest_endpoints db v) as [|ep eps] eqn:Heps; [discriminate|].
  destruct (select_zaif_endpoints (ep :: eps)) as [t l] eqn:Hsel.
  destruct (found t) as [ticker|] eqn:Ht; [|discriminate].
  injection Hrun as <-. apply found_some in Hv, Ht. subst t.
  exists v, ticker, l.
  split; [exact Hv | split; [rewrite Heps; exact Hsel|]].
  rewrite zaif_loop_as_path_loop.
  destruct (path_loop_grows ok v (zaif_row v ticker l) batch
              (mkMapperState db 0 [])) as (added & Hf & _ & _ & _ & Hr).
  cbn [ms_db] in Hf. rewrite Hf.
  assert (Hticker : existsb (fun ep0 => (endpoint_id ep0 =? ticker)
                                        && (ep_vendor_id ep0 =? v))
                      (rest_endpoints db) = true).
  { apply zaif_endpoint_owned. rewrite Heps, Hsel. now left. }
  assert (Hadded : Forall (fun fm =>
                     references_one_source db fm = true
                     \/ (l = None /\ vendor_field_path fm = "last_price"
                         /\ fm_endpoint_id fm = None /\ fm_channel_id fm = None))
                     added).
  { eapply Forall_impl; [|exact Hr]. intros fm (dbx & cf & p & _ & ->).
    unfold references_one_source, stored_row, zaif_row.
    cbn [fm_endpoint_id fm_channel_id source_type fm_vendor_id nm_endpoint_id
         nm_channel_id nm_source_type nm_vendor_id vendor_field_path
         nm_vendor_field_path].
    destruct (String.eqb (fst (fst p)) "last_price") eqn:Hp.
    - destruct l as [e|].
      + left. assert (He : existsb (fun ep0 => (endpoint_id ep0 =? e)
                                               && (ep_vendor_id ep0 =? v))
                             (rest_endpoints db) = true).
        { apply zaif_endpoint_owned. rewrite Heps, Hsel. now right. }
        rewrite He. reflexivity.
      + right. apply String.eqb_eq in Hp. auto.
    - left. rewrite Hticker. reflexivity. }
  split.
  - apply Forall_app. split; [|exact Hadded].
    apply Forall_forall. intros fm Hin. left.
    rewrite forallb_forall in Hall. now apply Hall.
  - intros e ->. rewrite forallb_app, Hall. cbn [andb].
    apply forallb_forall. intros fm Hin. rewrite Forall_forall in Hadded.
    destruct (Hadded fm Hin) as [H | (H & _)]; [exact H | discriminate].
Qed.

(** The pass on the seeded catalog with both Zaif endpoints. *)
Lemma zaif_pass_source_of_each_row_witness :
  forallb (references_one_source zaif_full_db) (field_mappings zaif_full_db)
  = true
  /\ exists st,
       zaif_create_mappings fk_constraints false zaif_full_db = Committed st
       /\ List.length (field_mappings (ms_db st)) = 7%nat
       /\ exists v ticker l,
            get_vendor_id zaif_full_db "zaif" = Some v
            /\ select_zaif_endpoints (get_rest_endpoints zaif_full_db v)
               = (Some ticker, l)
            /\ Forall (fun fm =>
                         references_one_source zaif_full_db fm = true
                         \/ (l = None /\ vendor_field_path fm = "last_price"
                             /\ fm_endpoint_id fm = None
                             /\ fm_channel_id fm = None))
                 (field_mappings (ms_db st))
            /\ (forall e, l = Some e ->
                  forallb (references_one_source zaif_full_db)
                    (field_mappings (ms_db st))
                  = true).
Proof.
  split; [reflexivity|].
  eexists. split; [vm_compute; reflexivity|].
  split; [vm_compute; reflexivity|].
  exact (zaif_pass_source_of_each_row fk_constraints zaif_proposed_mappings
           zaif_full_db _ eq_refl eq_refl).
Defined.


(** ** The coverage query of the REST demo stays within its bounds *)

Lemma insert_by_name_perm :
  forall (A : Type) (name : A -> string) (x : A) (l : list A),
    Permutation (x :: l) (insert_by_name name x l).
Proof.
  intros A name x l. induction l as [|y l IH]; simpl; [reflexivity|].
  destruct (String.ltb (name y) (name x) || String.eqb (name y) (name x)).
  - etransitivity; [apply perm_swap | apply perm_skip, IH].
  - reflexivity.
Qed.

Lemma sort_by_name_perm :
  forall (A : Type) (name : A -> string) (l : list A),
    Permutation l (sort_by_name name l).
Proof.
  intros A name l. unfold sort_by_name.
  induction l as [|x l IH]; simpl; [constructor|].
  etransitivity; [apply perm_skip, IH | apply insert_by_name_perm].
Qed.

Lemma coverage_row_within_bounds :
  forall db v dt,
    fields_of_type db dt <> [] ->
    1 <= cr_fields_defined (coverage_row db v dt)
    /\ 0 <= cr_fields_mapped (coverage_row db v dt)
       <= cr_fields_defined (coverage_row db v dt).
Proof.
  intros db v dt Hne. unfold coverage_row.
  cbn [cr_fields_defined cr_fields_mapped].
  set (fields := fields_of_type db dt) in *.
  set (defined := nodup Z.eq_dec (map canonical_field_id fields)).
  set (mapped := nodup Z.eq_dec
                   (map fm_canonical_field_id
                      (flat_map (rest_mappings_of db v dt) fields))).
  assert (Hone : (1 <= List.length defined)%nat).
  { destruct fields as [|cf fields']; [congruence|].
    assert (Hin : In (canonical_field_id cf) defined).
    { apply nodup_In. now left. }
    destruct defined; [destruct Hin | simpl; lia]. }
  assert (Hle : (List.length mapped <= List.length defined)%nat).
  { apply NoDup_incl_length; [apply NoDup_nodup|].
    intros x Hx. apply nodup_In in Hx. apply in_map_iff in Hx as (fm & <- & Hfm).
    apply in_flat_map in Hfm as (cf & Hcf & Hfm).
    unfold rest_mappings_of in Hfm. apply filter_In in Hfm as [_ Hsel].
    do 3 (apply andb_true_iff in Hsel as [Hsel _]).
    apply andb_true_iff in Hsel as [_ Hsel].
    apply Z.eqb_eq in Hsel. rewrite <- Hsel.
    apply nodup_In, in_map, Hcf. }
  lia.
Qed.

(** The ticker coverage rows of the REST demo's [verify_mappings] never
    divide by zero and never exceed full coverage: in every catalog and for
    every row, at least one field is defined and the number of mapped
    fields lies between zero and the number of defined fields -- whatever
    duplicate, inactive or foreign mappings are stored. *)
Theorem rest_coverage_within_bounds :
  forall db : Database,
    Forall (fun row =>
              1 <= cr_fields_defined row
              /\ 0 <= cr_fields_mapped row <= cr_fields_defined row)
      (verify_ticker_coverage db).
Proof.
  intros db. unfold verify_ticker_coverage.
  eapply Permutation_Forall; [apply sort_by_name_perm|].
  apply Forall_flat_map, Forall_forall. intros v _.
  apply Forall_map, Forall_forall. intros dt Hdt.
  apply filter_In in Hdt as [_ Hsel].
  apply andb_true_iff in Hsel as [_ Hne].
  apply coverage_row_within_bounds.
  destruct (fields_of_type db dt); [discriminate | congruence].
Qed.


(** ** SQL's LIKE against Python's substring test *)

Lemma like_char :
  forall c p d s,
    Ascii.eqb c "%" = false ->
    like (String c p) (String d s)
    = (Ascii.eqb c "_" || Ascii.eqb (ascii_lower c) (ascii_lower d))
      && like p s.
Proof. intros c p d s H. cbn [like]. now rewrite H. Qed.

Lemma like_char_nil :
  forall c p, Ascii.eqb c "%" = false -> like (String c p) "" = false.
Proof. intros c p H. cbn [like]. now rewrite H. Qed.

Lemma like_percent_cons :
  forall p c s,
    like (String "%" p) (String c s)
    = like p (String c s) || like (String "%" p) s.
Proof. intros p c s. reflexivity. Qed.

Lemma like_percent_nil : forall p, like (String "%" p) "" = like p "".
Proof. intros p. cbn. apply orb_false_r. Qed.

Lemma like_literal_prefix :
  forall p t,
    literal p = true -> like (p ++ "%") t = true -> prefix p (lower t) = true.
Proof.
  induction p as [|c p IH]; intros t Hp H.
  - destruct (lower t); reflexivity.
  - cbn [literal] in Hp.
    apply andb_true_iff in Hp as [Hp Hrest].
    apply andb_true_iff in Hp as [Hp Hlow].
    apply andb_true_iff in Hp as [Hpct Hund].
    apply negb_true_iff in Hpct, Hund. apply Ascii.eqb_eq in Hlow.
    change (String c p ++ "%") with (String c (p ++ "%")) in H.
    destruct t as [|d t].
    + rewrite like_char_nil in H by exact Hpct. discriminate.
    + rewrite like_char in H by exact Hpct.
      apply andb_true_iff in H as [Hc H]. rewrite Hund, Hlow in Hc.
      cbn [orb] in Hc. apply Ascii.eqb_eq in Hc.
      change (lower (String d t)) with (String (ascii_lower d) (lower t)).
      cbn [prefix]. destruct (ascii_dec c (ascii_lower d)); [|congruence].
      now apply IH.
Qed.

Lemma like_literal_contains :
  forall p s,
    literal p = true ->
    like (String "%" (p ++ "%")) s = true -> contains p (lower s) = true.
Proof.
  intros p s Hp. induction s as [|c s IH]; intros H.
  - rewrite like_percent_nil in H. apply like_literal_prefix in H; [|exact Hp].
    cbn [lower contains] in *. rewrite H. reflexivity.
  - rewrite like_percent_cons in H. apply orb_true_iff in H as [H | H].
    + apply like_literal_prefix in H; [|exact Hp].
      change (lower (String c s)) with (String (ascii_lower c) (lower s)) in *.
      cbn [contains]. rewrite H. reflexivity.
    + apply IH in H.
      change (lower (String c s)) with (String (ascii_lower c) (lower s)).
      cbn [contains]. rewrite H. apply orb_true_r.
Qed.

(** Korbit's scan for the ticker channel always stops at the first channel
    the query returned.  Every channel [get_websocket_channels] returns
    passed [LIKE '%ticker%'], so the test ['ticker' in name.lower()] of the
    loop holds for the first one: the pass binds its mappings to that
    channel, and its "no ticker channel" exit is taken exactly when that
    channel's id is 0. *)
Theorem korbit_scan_takes_first_channel :
  forall (ok : Database -> NewMapping -> bool) (batch : list Proposal)
         (dry_run : bool) (db : Database) (v : Z) (ch : WebSocketChannel)
         (chs : list WebSocketChannel),
    found (get_vendor_id db "korbit") = Some v ->
    get_websocket_channels db v = ch :: chs ->
    first_ticker_channel (ch :: chs) = Some (channel_id ch)
    /\ (korbit_create_mappings_over ok batch dry_run db = Aborted NoTickerSource
        <-> channel_id ch = 0)
    /\ (channel_id ch <> 0 ->
        korbit_create_mappings_over ok batch false db
        = Committed (fold_left (korbit_step ok v (channel_id ch)) batch
                       (mkMapperState db 0 []))).
Proof.
  intros ok batch dry_run db v ch chs Hv Hchs.
  assert (Hfirst : first_ticker_channel (ch :: chs) = Some (channel_id ch)).
  { assert (Hin : In ch (get_websocket_channels db v)).
    { rewrite Hchs. now left. }
    unfold get_websocket_channels in Hin. apply filter_In in Hin as [_ Hsel].
    apply andb_true_iff in Hsel as [_ Hlike].
    apply (like_literal_contains "ticker") in Hlike; [|reflexivity].
    unfold first_ticker_channel. cbn [find]. rewrite Hlike. reflexivity. }
  split; [exact Hfirst|].
  unfold korbit_create_mappings_over. rewrite Hv, Hchs, Hfirst.
  unfold found, truthy.
  destruct (channel_id ch =? 0) eqn:Hz; cbn [negb].
  - apply Z.eqb_eq in Hz. split; [tauto | intros Hne; contradiction].
  - apply Z.eqb_neq in Hz. split; [|reflexivity].
    split; [|intros H0; contradiction].
    destruct dry_run; discriminate.
Qed.

(** Korbit on the seeded catalog: channel 2 is the first and only one. *)
Lemma korbit_scan_takes_first_channel_witness :
  found (get_vendor_id seed_db "korbit") = Some 2
  /\ get_websocket_channels seed_db 2 = [mkChannel 2 2 "ticker"]
  /\ first_ticker_channel [mkChannel 2 2 "ticker"] = Some 2
  /\ korbit_create_mappings fk_constraints false seed_db
     = Committed seed_korbit_state.
Proof.
  pose proof (korbit_scan_takes_first_channel fk_constraints
                korbit_proposed_mappings false seed_db 2
                (mkChannel 2 2 "ticker") [] eq_refl eq_refl)
    as (Hfirst & _ & Hrun).
  split; [reflexivity | split; [reflexivity | split; [exact Hfirst|]]].
  apply Hrun. discriminate.
Defined.


(** ** Counts by group add up *)

Lemma total_add {A : Type} :
  forall (f h : A -> Z) l,
    total (fun x => f x + h x) l = total f l + total h l.
Proof.
  intros f h l. induction l as [|x l IH]; simpl; [reflexivity|].
  rewrite IH. lia.
Qed.

Lemma total_ext {A : Type} :
  forall (f h : A -> Z) l,
    (forall x, In x l -> f x = h x) -> total f l = total h l.
Proof.
  intros f h l. induction l as [|x l IH]; intros H; simpl; [reflexivity|].
  rewrite IH by (intros y Hy; apply H; now right).
  rewrite (H x) by now left. reflexivity.
Qed.

Lemma total_le {A : Type} :
  forall (f h : A -> Z) l,
    (forall x, f x <= h x) -> total f l <= total h l.
Proof.
  intros f h l H. induction l as [|x l IH]; simpl; [lia|].
  specialize (H x). lia.
Qed.

Lemma total_zero {A : Type} : forall l : list A, total (fun _ => 0) l = 0.
Proof. induction l as [|x l IH]; simpl; [reflexivity | exact IH]. Qed.

Lemma total_perm {A : Type} :
  forall (g : A -> Z) l l', Permutation l l' -> total g l = total g l'.
Proof.
  intros g l l' H. induction H; simpl; lia.
Qed.

Lemma total_map {A : Type} :
  forall (B : Type) (f : B -> A) (g : A -> Z) l,
    total g (map f l) = total (fun x => g (f x)) l.
Proof.
  intros B f g l. induction l as [|x l IH]; simpl; [reflexivity|].
  now rewrite IH.
Qed.

Lemma length_total {A : Type} :
  forall l : list A, Z.of_nat (List.length l) = total (fun _ => 1) l.
Proof.
  induction l as [|x l IH]; [reflexivity|].
  cbn [List.length total fold_right]. fold (total (fun _ : A => 1) l). lia.
Qed.

Lemma length_filter_total {A : Type} :
  forall (p : A -> bool) l,
    Z.of_nat (List.length (filter p l))
    = total (fun x => if p x then 1 else 0) l.
Proof.
  intros p l. induction l as [|x l IH]; [reflexivity|].
  cbn [filter total fold_right].
  fold (total (fun x => if p x then 1 else 0) l).
  destruct (p x); cbn [List.length]; lia.
Qed.

Lemma length_flat_map_total {A : Type} :
  forall (B : Type) (f : A -> list B) l,
    Z.of_nat (List.length (flat_map f l))
    = total (fun x => Z.of_nat (List.length (f x))) l.
Proof.
  intros B f l. induction l as [|x l IH]; [reflexivity|].
  cbn [flat_map total fold_right].
  fold (total (fun x => Z.of_nat (List.length (f x))) l).
  rewrite length_app, Nat2Z.inj_add, IH. reflexivity.
Qed.

Lemma total_cons {A : Type} :
  forall (g : A -> Z) x l, total g (x :: l) = g x + total g l.
Proof. reflexivity. Qed.

Lemma total_swap {A : Type} :
  forall (B : Type) (w : A -> B -> Z) (vs : list A) (fms : list B),
    total (fun v => total (fun fm => w v fm) fms) vs
    = total (fun fm => total (fun v => w v fm) vs) fms.
Proof.
  intros B w vs fms. induction vs as [|v vs IH].
  - simpl. symmetry. apply total_zero.
  - rewrite total_cons, IH. symmetry.
    change (total (fun fm => total (fun v0 => w v0 fm) (v :: vs)) fms)
      with (total (fun fm => w v fm + total (fun v0 => w v0 fm) vs) fms).
    apply total_add.
Qed.

Lemma total_indicator :
  forall (ks : list string) (k0 : string) (c : Z),
    NoDup ks ->
    total (fun k => if String.eqb k0 k then c else 0) ks
    = if in_dec string_dec k0 ks then c else 0.
Proof.
  intros ks k0 c Hnd. induction Hnd as [|k ks Hk Hnd IH]; [reflexivity|].
  cbn [total fold_right].
  fold (total (fun k => if String.eqb k0 k then c else 0) ks). rewrite IH.
  destruct (String.eqb k0 k) eqn:He.
  - apply String.eqb_eq in He. subst k.
    destruct (in_dec string_dec k0 ks) as [Hin | _]; [contradiction|].
    destruct (in_dec string_dec k0 (k0 :: ks)) as [_ | Hout];
      [lia | exfalso; apply Hout; now left].
  - apply String.eqb_neq in He.
    destruct (in_dec string_dec k0 ks) as [Hin | Hout];
      destruct (in_dec string_dec k0 (k :: ks)) as [Hin' | Hout'];
      try lia.
    + exfalso. apply Hout'. now right.
    + exfalso. destruct Hin' as [Heq | Hin']; [congruence | contradiction].
Qed.

Lemma total_by_key {A : Type} :
  forall (key : A -> string) (g : A -> Z) (l : list A) (ks : list string),
    NoDup ks ->
    incl (map key l) ks ->
    total (fun k => total g (filter (fun x => String.eqb (key x) k) l)) ks
    = total g l.
Proof.
  intros key g l ks Hnd. induction l as [|x l IH]; intros Hincl.
  - simpl. apply total_zero.
  - cbn [total fold_right]. fold (total g l).
    rewrite <- IH by (intros k Hk; apply Hincl; now right).
    rewrite (total_ext _
               (fun k => (if String.eqb (key x) k then g x else 0)
                         + total g (filter (fun y => String.eqb (key y) k) l))).
    + rewrite total_add, total_indicator by exact Hnd.
      destruct (in_dec string_dec (key x) ks) as [_ | Hout]; [reflexivity|].
      exfalso. apply Hout, Hincl. now left.
    + intros k _. cbn [filter]. destruct (String.eqb (key x) k); simpl; lia.
Qed.

Lemma filter_none {A : Type} :
  forall (p : A -> bool) l,
    (forall x, In x l -> p x = false) -> filter p l = [].
Proof.
  intros p l. induction l as [|x l IH]; intros H; [reflexivity|].
  cbn [filter]. rewrite (H x) by now left.
  apply IH. intros y Hy. apply H. now right.
Qed.

Lemma unique_match {A : Type} :
  forall (id : A -> Z) (vs : list A) (x : Z),
    NoDup (map id vs) ->
    In x (map id vs) ->
    Z.of_nat (List.length (filter (fun v => id v =? x) vs)) = 1.
Proof.
  intros id vs x. induction vs as [|v vs IH]; intros Hnd Hin; [destruct Hin|].
  cbn [map] in Hnd. apply NoDup_cons_iff in Hnd as [Hout Hnd].
  cbn [filter]. destruct (id v =? x) eqn:He.
  - apply Z.eqb_eq in He. subst x. rewrite filter_none; [reflexivity|].
    intros y Hy. apply Z.eqb_neq. intros Heq. apply Hout. rewrite <- Heq.
    now apply in_map.
  - apply Z.eqb_neq in He. apply IH; [exact Hnd|].
    destruct Hin as [Heq | Hin]; [congruence | exact Hin].
Qed.

Lemma filter_all {A : Type} :
  forall l : list A, filter (fun _ => true) l = l.
Proof. induction l as [|x l IH]; simpl; [reflexivity | now rewrite IH]. Qed.

Lemma filter_and_length {A : Type} :
  forall (a b : A -> bool) l,
    (List.length (filter (fun x => a x && b x) l)
     <= List.length (filter a l))%nat.
Proof.
  intros a b l. induction l as [|x l IH]; simpl; [lia|].
  destruct (a x), (b x); simpl; lia.
Qed.

Lemma sum_counts_total :
  forall rows : list (string * Z), sum_counts rows = total snd rows.
Proof. reflexivity. Qed.

(** The rows of each vendor, counted vendor by vendor, are all the rows:
    with unique vendor ids and every mapping naming a vendor row, the
    counts of the rows that pass [q] add up to the number of such rows. *)
Lemma vendor_partition :
  forall (q : FieldMapping -> bool) (db : Database),
    NoDup (map vendor_id (vendors db)) ->
    mappings_have_vendor db = true ->
    total (fun v =>
             Z.of_nat
               (List.length
                  (filter (fun fm => (vendor_id v =? fm_vendor_id fm) && q fm)
                     (field_mappings db))))
      (vendors db)
    = Z.of_nat (List.length (filter q (field_mappings db))).
Proof.
  intros q db Hnd Hfk.
  rewrite (total_ext _
             (fun v => total (fun fm => if (vendor_id v =? fm_vendor_id fm) && q fm
                                        then 1 else 0)
                         (field_mappings db)))
    by (intros v _; apply length_filter_total).
  rewrite (total_swap _ (fun v fm => if (vendor_id v =? fm_vendor_id fm) && q fm
                                     then 1 else 0)).
  rewrite length_filter_total. apply total_ext. intros fm Hin.
  unfold mappings_have_vendor in Hfk. rewrite forallb_forall in Hfk.
  specialize (Hfk fm Hin). apply existsb_exists in Hfk as (v0 & Hv0 & Heq).
  apply Z.eqb_eq in Heq.
  destruct (q fm).
  - rewrite (total_ext _ (fun v => if vendor_id v =? fm_vendor_id fm
                                   then 1 else 0))
      by (intros v _; now rewrite andb_true_r).
    rewrite <- length_filter_total. apply unique_match; [exact Hnd|].
    rewrite <- Heq. now apply in_map.
  - rewrite (total_ext _ (fun _ => 0))
      by (intros v _; now rewrite andb_false_r).
    apply total_zero.
Qed.

Lemma total_by_vendor_name :
  forall (g : Vendor -> Z) (db : Database),
    total (fun name =>
             total g (filter (fun v => String.eqb (vendor_name v) name)
                        (vendors db)))
      (nodup string_dec (map vendor_name (vendors db)))
    = total g (vendors db).
Proof.
  intros g db. apply total_by_key; [apply NoDup_nodup|].
  intros k Hk. now apply nodup_In.
Qed.

(** The per-exchange counts of update_status.py add up to its totals.
    With unique vendor ids and every mapping naming a vendor row, the
    mapping counts of [get_exchange_mappings] sum to
    [get_total_field_mappings] and the ticker counts of
    [get_exchange_ticker_coverage] to the number of ticker mappings,
    whatever the engine's order; and no exchange has more ticker mappings
    than mappings. *)
Theorem exchange_counts_add_up :
  forall (order_by_desc : list (string * Z) -> list (string * Z))
         (db : Database),
    engine_sorts order_by_desc ->
    NoDup (map vendor_id (vendors db)) ->
    mappings_have_vendor db = true ->
    sum_counts (get_exchange_mappings order_by_desc db)
    = get_total_field_mappings db
    /\ (get_total_canonical_ticker_fields db <> 0 ->
        sum_counts (map fst (get_exchange_ticker_coverage order_by_desc db))
        = count_rows (fun fm => String.eqb (entity_type fm) "ticker") db)
    /\ (forall name, count_ticker_mappings db name <= count_mappings db name).
Proof.
  intros order db Hsort Hnd Hfk. split; [|split].
  - unfold get_exchange_mappings, get_total_field_mappings.
    rewrite sum_counts_total.
    rewrite <- (total_perm snd _ _ (proj1 (Hsort (mapping_groups db)))).
    unfold mapping_groups. rewrite total_map. cbn [snd].
    unfold count_mappings.
    rewrite (total_ext _
               (fun name =>
                  total (fun v => Z.of_nat (List.length (mappings_of db v)))
                    (filter (fun v => String.eqb (vendor_name v) name)
                       (vendors db))))
      by (intros name _; apply length_flat_map_total).
    rewrite total_by_vendor_name.
    rewrite <- (filter_all (field_mappings db)).
    rewrite <- (vendor_partition (fun _ => true) db Hnd Hfk).
    apply total_ext. intros v _. unfold mappings_of. f_equal. f_equal.
    apply filter_ext. intros fm. now rewrite andb_true_r.
  - intros Hfields. unfold get_exchange_ticker_coverage.
    destruct (get_total_canonical_ticker_fields db =? 0) eqn:Hz;
      [apply Z.eqb_eq in Hz; contradiction|].
    rewrite map_map.
    rewrite (map_ext _ (fun g : string * Z => g))
      by (intros [name count]; reflexivity).
    rewrite map_id, sum_counts_total.
    rewrite <- (total_perm snd _ _ (proj1 (Hsort (vendor_groups db)))).
    unfold vendor_groups. rewrite total_map. cbn [snd].
    unfold count_ticker_mappings.
    rewrite (total_ext _
               (fun name =>
                  total (fun v => Z.of_nat (List.length (ticker_mappings_of db v)))
                    (filter (fun v => String.eqb (vendor_name v) name)
                       (vendors db))))
      by (intros name _; apply length_flat_map_total).
    rewrite total_by_vendor_name. unfold count_rows.
    apply (vendor_partition
             (fun fm => String.eqb (entity_type fm) "ticker") db Hnd Hfk).
  - intros name. unfold count_ticker_mappings, count_mappings.
    rewrite !length_flat_map_total. apply total_le. intros v.
    unfold ticker_mappings_of, mappings_of.
    apply inj_le, filter_and_length.
Qed.

(** The counts after the BitMart pass on the seeded catalog. *)
Lemma exchange_counts_add_up_witness :
  engine_sorts stable_order_by_desc
  /\ NoDup (map vendor_id
              (vendors (bs_db (map_bitmart_ticker_fields fk_constraints seed_db))))
  /\ mappings_have_vendor
       (bs_db (map_bitmart_ticker_fields fk_constraints seed_db)) = true
  /\ get_total_field_mappings
       (bs_db (map_bitmart_ticker_fields fk_constraints seed_db)) = 13
  /\ sum_counts
       (get_exchange_mappings stable_order_by_desc
          (bs_db (map_bitmart_ticker_fields fk_constraints seed_db)))
     = get_total_field_mappings
         (bs_db (map_bitmart_ticker_fields fk_constraints seed_db)).
Proof.
  assert (Hnd : NoDup (map vendor_id
                         (vendors (bs_db (map_bitmart_ticker_fields
                                            fk_constraints seed_db))))).
  { vm_compute. repeat constructor; simpl; intuition discriminate. }
  split; [exact stable_order_by_desc_sorts|].
  split; [exact Hnd|].
  split; [vm_compute; reflexivity|].
  split; [vm_compute; reflexivity|].
  exact (proj1 (exchange_counts_add_up stable_order_by_desc _
                  stable_order_by_desc_sorts Hnd eq_refl)).
Defined.





(** ** BitMart's verification after its pass *)

Lemma verify_rows_by_entity_type :
  forall db,
    sum_counts (bitmart_verify_by_entity_type db)
    = Z.of_nat (List.length (bitmart_verify_rows db)).
Proof.
  intros db. unfold bitmart_verify_by_entity_type.
  rewrite sum_counts_total, total_map. cbn [snd].
  rewrite (total_ext _
             (fun etype =>
                total (fun _ => 1)
                  (filter (fun fm => String.eqb (entity_type fm) etype)
                     (bitmart_verify_rows db))))
    by (intros etype _; apply length_total).
  rewrite (total_by_key entity_type (fun _ => 1));
    [symmetry; apply length_total | apply NoDup_nodup |].
  intros k Hk. now apply nodup_In.
Qed.

(** [verify_mappings] sees every mapping the BitMart pass created.  After
    a pass over any batch, the rows its two counting queries select are
    those they selected before plus one per "created" line of the pass,
    and the counts by entity type add up to the number of those rows. *)
Theorem bitmart_verify_sees_created :
  forall (ok : Database -> NewMapping -> bool) (batch : list BitmartProposal)
         (db : Database),
    let st := map_bitmart_ticker_fields_over ok batch db in
    Z.of_nat (List.length (bitmart_verify_rows (bs_db st)))
    = Z.of_nat (List.length (bitmart_verify_rows db))
      + count_outcome MappingCreated (bs_log st)
    /\ sum_counts (bitmart_verify_by_entity_type (bs_db st))
       = Z.of_nat (List.length (bitmart_verify_rows (bs_db st))).
Proof.
  intros ok batch db. cbv zeta. split; [|apply verify_rows_by_entity_type].
  unfold map_bitmart_ticker_fields_over.
  destruct (found (get_vendor_id db "bitmart")) as [v|] eqn:Hv.
  2:{ cbn [bs_db bs_log]. change (count_outcome MappingCreated []) with 0. lia. }
  destruct (found (get_websocket_channel_id db v "spot/ticker")) as [c|] eqn:Hc.
  2:{ cbn [bs_db bs_log]. change (count_outcome MappingCreated []) with 0. lia. }
  rewrite bitmart_loop_as_keyed_loop.
  destruct (keyed_loop_grows ok (bitmart_key v c) (bitmart_row v c) batch
              (mkBitmartState db 0 0 []))
    as (added & Hf & Hcat & Hl & _ & _ & Hr).
  cbn [bs_db bs_log] in Hf, Hcat, Hl.
  change (count_outcome MappingCreated []) with 0 in Hl.
  set (final := fold_left (keyed_step ok (bitmart_key v c) (bitmart_row v c))
                  batch (mkBitmartState db 0 0 [])) in *.
  apply found_some in Hv, Hc. unfold bitmart_verify_rows.
  rewrite <- (same_catalog_vendor_id db (bs_db final) _ Hcat), Hv.
  rewrite <- (same_catalog_channel_id db (bs_db final) _ _ Hcat), Hc.
  rewrite Hf, filter_app, length_app, Nat2Z.inj_add, Hl.
  rewrite (forallb_filter_id _ added); [lia|].
  apply forallb_forall. intros fm Hin. rewrite Forall_forall in Hr.
  destruct (Hr fm Hin) as (dbx & cf & p & _ & ->).
  unfold stored_row, bitmart_row.
  cbn [fm_vendor_id fm_channel_id nm_vendor_id nm_channel_id null_eqb].
  now rewrite !Z.eqb_refl.
Qed.
